(** * bichrome_image_convert: the image pipeline of
      [conv_img_to_custom_bichrome.py], embedded and verified.

    The script turns a picture into a two-colour one with Pillow:
    grey-scale reduction, a point threshold at 128, a per-pixel colour
    substitution, an optional resize and a save; a second function applies
    this to every picture of a folder.

    Pillow and [os] are libraries, not part of the script.  The operations
    the script calls are modelled here after Pillow (9.x, the last series
    that has [Image.ANTIALIAS]) and posixpath; what cannot be written down
    exactly (the file codecs and the floating-point Lanczos kernel) is a
    field of the record [Pillow] below and stays abstract.  Since the
    encoders are abstract (and some are lossy), the output image of a run
    is the raster handed to [save].  Paths are POSIX paths and file names
    ASCII strings. *)

From Stdlib Require Import ZArith String Ascii List Lia.
From stdpp Require Import base option list list_numbers strings pretty gmap.

Local Open Scope Z_scope.

(** ** Data model *)

(** A colour as the script passes it around: a Python 3-tuple of ints. *)
Abbreviation rgb := (Z * Z * Z)%type.
Abbreviation rgba := (Z * Z * Z * Z)%type.

(** One band is an unsigned 8-bit value. *)
Definition is_u8 (v : Z) : bool := (0 <=? v) && (v <=? 255).

Definition valid_color (c : rgb) : bool :=
  let '(r, g, b) := c in is_u8 r && is_u8 g && is_u8 b.

Definition valid_rgba (c : rgba) : bool :=
  let '(r, g, b, a) := c in is_u8 r && is_u8 g && is_u8 b && is_u8 a.

(** Pillow's CLIP8, applied wherever a Python int is stored into a band. *)
Definition clip8 (v : Z) : Z := if v <? 0 then 0 else if 255 <? v then 255 else v.

Definition clip_rgb (c : rgb) : rgb :=
  let '(r, g, b) := c in (clip8 r, clip8 g, clip8 b).

(** A raster: [size] is Pillow's [(width, height)], [data] the pixels row
    by row, pixel [(x, y)] at index [y * width + x]. *)
Record Img (A : Type) : Type := mkImg { size : Z * Z; data : list A }.
Arguments mkImg {A} size data.
Arguments size {A} _.
Arguments data {A} _.

Definition width {A} (im : Img A) : Z := fst (size im).
Definition height {A} (im : Img A) : Z := snd (size im).

(** A decoded picture carries its mode.  Covered: "1" (one byte per pixel,
    0 or 255), "L", "RGB" and "RGBA". *)
Inductive Image : Type :=
  | Mode1 (im : Img Z)
  | ModeL (im : Img Z)
  | ModeRGB (im : Img rgb)
  | ModeRGBA (im : Img rgba).

Definition Image_size (image : Image) : Z * Z :=
  match image with
  | Mode1 im | ModeL im => size im
  | ModeRGB im => size im
  | ModeRGBA im => size im
  end.

(** The number of pixels matches the size, and every band is a byte. *)
Definition wf_img {A} (ok : A -> bool) (im : Img A) : bool :=
  (0 <=? width im) && (0 <=? height im)
  && (Z.of_nat (length (data im)) =? width im * height im)
  && forallb ok (data im).

Definition wf_image (image : Image) : bool :=
  match image with
  | Mode1 im | ModeL im => wf_img is_u8 im
  | ModeRGB im => wf_img valid_color im
  | ModeRGBA im => wf_img valid_rgba im
  end.

(** ** Exceptions and the two monads *)

Inductive exn : Type :=
  | FileNotFoundError (path : string)
  | FileExistsError (path : string)
  | IsADirectoryError (path : string)
  | UnidentifiedImageError (path : string)
  | IndexError
  | ValueError (msg : string)
  | OSError (path : string).

(** What a Python expression evaluates to: a value, or a raised exception. *)
Inductive outcome (A : Type) : Type :=
  | Ret (a : A)
  | Raise (e : exn).
Arguments Ret {A} a.
Arguments Raise {A} e.

Definition outcome_bind {A B} (f : A -> outcome B) (m : outcome A) : outcome B :=
  match m with
  | Ret a => f a
  | Raise e => Raise e
  end.

#[export] Instance outcome_mret : MRet outcome := @Ret.
#[export] Instance outcome_mbind : MBind outcome := @outcome_bind.

(** [for b in l: s = body(b, s)], stopping at the first exception. *)
Fixpoint for_each {S B} (l : list B) (body : B -> S -> outcome S) (s : S)
  : outcome S :=
  match l with
  | [] => Ret s
  | b :: l' => s' ← body b s; for_each l' body s'
  end.

(** Python's [range(n)]. *)
Definition range (n : Z) : list Z := seqZ 0 n.

(** ** Pillow, the pure operations the script uses *)

(** [L24(rgb) >> 16] of Convert.c: the ITU-R 601-2 luma transform in 16-bit
    fixed point, as [convert("L")] applies it to an RGB(A) pixel. *)
Definition L24 (r g b : Z) : Z := r * 19595 + g * 38470 + b * 7471 + 32768.

Definition rgb2l (p : rgb) : Z :=
  let '(r, g, b) := p in Z.shiftr (L24 r g b) 16.

Definition rgba2l (p : rgba) : Z :=
  let '(r, g, b, _) := p in Z.shiftr (L24 r g b) 16.

Definition bit2l (v : Z) : Z := if v =? 0 then 0 else 255.

(** [image.convert("L")]: the luminance grid of a decoded picture. *)
Definition Image_convert_L (image : Image) : Img Z :=
  match image with
  | Mode1 im => mkImg (size im) (map bit2l (data im))
  | ModeL im => mkImg (size im) (data im)
  | ModeRGB im => mkImg (size im) (map rgb2l (data im))
  | ModeRGBA im => mkImg (size im) (map rgba2l (data im))
  end.

(** [im.point(f, '1')] on an "L" image: [f] is tabulated over [range(256)],
    the table is stored as bytes, and every pixel is looked up in it.  The
    result is a mode "1" raster. *)
Definition point_table (f : Z -> Z) : list Z := map (fun i => clip8 (f i)) (range 256).

Definition Image_point_1 (f : Z -> Z) (im : Img Z) : Img Z :=
  let lut := point_table f in
  mkImg (size im) (map (fun v => default 0 (lut !! Z.to_nat v)) (data im)).

(** [im.convert("RGB")] on a mode "1" raster (bit2rgb). *)
Definition bit2rgb (v : Z) : rgb :=
  let c := if v =? 0 then 0 else 255 in (c, c, c).

Definition Image_convert_1_RGB (im : Img Z) : Img rgb :=
  mkImg (size im) (map bit2rgb (data im)).

(** [Image.new("RGB", size)]: every pixel black. *)
Definition Image_new_RGB (sz : Z * Z) : Img rgb :=
  mkImg sz (replicate (Z.to_nat (fst sz * snd sz)) (0, 0, 0)).

(** Pixel addressing shared by [load()[x, y]] and [putpixel]: a negative
    coordinate counts from the far edge, anything still outside raises. *)
Definition pixel_index {A} (im : Img A) (xy : Z * Z) : option nat :=
  let '(x, y) := xy in
  let x := if x <? 0 then width im + x else x in
  let y := if y <? 0 then height im + y else y in
  if (0 <=? x) && (x <? width im) && (0 <=? y) && (y <? height im)
  then Some (Z.to_nat (y * width im + x))
  else None.

(** [pixels[x, y]] where [pixels = im.load()]. *)
Definition PixelAccess_getitem {A} (im : Img A) (xy : Z * Z) : outcome A :=
  match pixel_index im xy with
  | Some i =>
      match data im !! i with
      | Some p => Ret p
      | None => Raise IndexError
      end
  | None => Raise IndexError
  end.

(** [im.putpixel(xy, value)]: the image is updated in place, which is the
    new raster here. *)
Definition Image_putpixel (im : Img rgb) (xy : Z * Z) (value : rgb)
  : outcome (Img rgb) :=
  match pixel_index im xy with
  | Some i =>
      if decide (i < length (data im))%nat
      then Ret (mkImg (size im) (<[i := clip_rgb value]> (data im)))
      else Raise IndexError
  | None => Raise IndexError
  end.

(** ** [replace_colors], the part before the resize *)

Definition threshold : Z := 128.

(** Lines 19-21: grey scale, then the point threshold into mode "1".  The
    result is the light/dark grid: 255 is light, 0 is dark. *)
Definition classify (image : Image) : Img Z :=
  let bw_image := Image_convert_L image in
  Image_point_1 (fun x => if x >? threshold then 255 else 0) bw_image.

(** A mode "1" pixel is white when it is not zero. *)
Definition is_light (v : Z) : bool := negb (v =? 0).

(** Lines 19-24: the grid converted back to RGB. *)
Definition binarize (image : Image) : Img rgb :=
  Image_convert_1_RGB (classify image).

(** Lines 26-31, the closure over the two colours. *)
Definition replace_pixel_color (black_color white_color : rgb) (pixel : rgb) : rgb :=
  if decide (pixel = (255, 255, 255)) then white_color
  else if decide (pixel = (0, 0, 0)) then black_color
  else pixel.

(** Lines 33-38: a fresh image filled pixel by pixel. *)
Definition colorize (black_color white_color : rgb) (bw_image : Img rgb)
  : outcome (Img rgb) :=
  let replaced_image := Image_new_RGB (size bw_image) in
  for_each (range (snd (size bw_image)))
    (fun y replaced_image =>
       for_each (range (fst (size bw_image)))
         (fun x replaced_image =>
            pixel ← PixelAccess_getitem bw_image (x, y);
            Image_putpixel replaced_image (x, y)
              (replace_pixel_color black_color white_color pixel))
         replaced_image)
    replaced_image.

(** ** The parts of Pillow that stay abstract *)

(** Keyword arguments of [Image.save] the script uses. *)
Record save_params : Type := mkParams { optimize : bool; quality : option Z }.

(** The file codecs and the resampling kernel.
    - [decode b] is the picture [Image.open] finds in the file content [b],
      [None] when Pillow cannot identify or read it;
    - [encode path params im] is what [im.save(path, **params)] writes, the
      format being chosen from the extension of [path]; [None] when the
      save raises (unknown extension, unwritable destination);
    - [lanczos im (w, h)] is the pixel data of [im] resampled to [w] by [h]
      with the [ANTIALIAS] (Lanczos) filter, whose coefficients Pillow
      computes in floating point. *)
Record Pillow : Type := mkPillow {
  bytes : Type;
  decode : bytes -> option Image;
  encode : string -> save_params -> Img rgb -> option bytes;
  lanczos : Img rgb -> Z * Z -> list rgb
}.

(** [im.resize(size, Image.ANTIALIAS)] without its kernel: a request for
    the size the image already has is answered by a copy, a width or height
    below 1 is refused by the resampler, anything else is resampled. *)
Definition resize_with (kernel : Img rgb -> Z * Z -> list rgb)
    (im : Img rgb) (new_size : Z * Z) : outcome (Img rgb) :=
  if decide (size im = new_size) then Ret im
  else if (fst new_size <? 1) || (snd new_size <? 1)
  then Raise (ValueError "height and width must be > 0")
  else Ret (mkImg new_size (kernel im new_size)).

(** ** posixpath and str *)

Definition startswith (s pre : string) : bool := String.prefix pre s.

Definition endswith (s suf : string) : bool :=
  let n := String.length s in
  let m := String.length suf in
  (m <=? n)%nat && String.eqb (String.substring (n - m) m s) suf.

(** [s.endswith((a, b, ...))] *)
Definition endswith_any (s : string) (sufs : list string) : bool :=
  existsb (endswith s) sufs.

(** [str.lower] on ASCII file names. *)
Definition ascii_lower (c : ascii) : ascii :=
  let n := nat_of_ascii c in
  if (65 <=? n)%nat && (n <=? 90)%nat then ascii_of_nat (n + 32) else c.

Fixpoint lower (s : string) : string :=
  match s with
  | EmptyString => EmptyString
  | String c s' => String (ascii_lower c) (lower s')
  end.

(** [os.path.join(a, b)] *)
Definition os_path_join (a b : string) : string :=
  if startswith b "/" then b
  else if String.eqb a "" || endswith a "/" then a +:+ b
  else a +:+ "/" +:+ b.

Section Pipeline.

Context (P : Pillow).

(** ** The outside world *)

(** What the script does to the outside, in order.  [Resized] is a pure
    computation but a stage of its own, so its invocation is recorded. *)
Inductive event : Type :=
  | MadeDirs (path : string)
  | Listed (path : string)
  | Opened (path : string)
  | Resized (new_size : Z * Z)
  | Saved (path : string) (params : save_params)
  | Printed (line : string).

(** Regular files by path, directories by path with their entries in the
    order [os.listdir] reports them, and the events so far. *)
Record World : Type := mkWorld {
  files : gmap string (bytes P);
  dirs : gmap string (list string);
  trace : list event
}.

Definition log (e : event) (w : World) : World :=
  mkWorld (files w) (dirs w) (trace w ++ [e]).

(** A statement of the script: it changes the world and returns or raises;
    what was done before an exception stays done. *)
Definition M (A : Type) : Type := World -> outcome A * World.

Definition M_ret {A} (a : A) : M A := fun w => (Ret a, w).

Definition M_bind {A B} (f : A -> M B) (m : M A) : M B :=
  fun w =>
    match m w with
    | (Ret a, w') => f a w'
    | (Raise e, w') => (Raise e, w')
    end.

#[local] Instance M_mret : MRet M := @M_ret.
#[local] Instance M_mbind : MBind M := @M_bind.

Definition lift {A} (o : outcome A) : M A := fun w => (o, w).

(** [for b in l: body(b)] *)
Fixpoint for_M {B} (l : list B) (body : B -> M unit) : M unit :=
  match l with
  | [] => mret tt
  | b :: l' => body b ≫= fun _ => for_M l' body
  end.

(** [print(line)] *)
Definition print (line : string) : M unit :=
  fun w => (Ret tt, log (Printed line) w).

(** [Image.open(path)], the pixel data included (Pillow reads them lazily,
    at the first [convert]; the script does nothing in between). *)
Definition Image_open (path : string) : M Image :=
  fun w =>
    let w := log (Opened path) w in
    match files w !! path with
    | None =>
        match dirs w !! path with
        | Some _ => (Raise (IsADirectoryError path), w)
        | None => (Raise (FileNotFoundError path), w)
        end
    | Some b =>
        match decode P b with
        | Some image => (Ret image, w)
        | None => (Raise (UnidentifiedImageError path), w)
        end
    end.

(** [im.resize(new_size, Image.ANTIALIAS)] *)
Definition Image_resize (im : Img rgb) (new_size : Z * Z) : M (Img rgb) :=
  fun w => (resize_with (lanczos P) im new_size, log (Resized new_size) w).

(** [im.save(path, **params)] *)
Definition Image_save (im : Img rgb) (path : string) (params : save_params) : M unit :=
  fun w =>
    let w := log (Saved path params) w in
    match encode P path params im with
    | Some b => (Ret tt, mkWorld (<[path := b]> (files w)) (dirs w) (trace w))
    | None => (Raise (OSError path), w)
    end.

(** [os.makedirs(path, exist_ok=True)]: afterwards [path] is a directory; a
    regular file in the way raises.  A directory it creates is empty.  Its
    ancestors are taken to exist, and the new entry in the listing of its
    parent is left out: the script lists [folder_path] only, where an
    entry named processed_images is no picture name. *)
Definition os_makedirs (path : string) : M unit :=
  fun w =>
    let w := log (MadeDirs path) w in
    match files w !! path, dirs w !! path with
    | Some _, _ => (Raise (FileExistsError path), w)
    | None, Some _ => (Ret tt, w)
    | None, None => (Ret tt, mkWorld (files w) (<[path := []]> (dirs w)) (trace w))
    end.

(** [os.listdir(path)] *)
Definition os_listdir (path : string) : M (list string) :=
  fun w =>
    let w := log (Listed path) w in
    match dirs w !! path with
    | Some names => (Ret names, w)
    | None => (Raise (FileNotFoundError path), w)
    end.

(** ** The two functions of the script *)

(** Lines 44-50: the save under one of the two policies, and the report. *)
Definition save_and_report
    (replaced_image : Img rgb) (output_path : string) (cleanup : bool) : M unit :=
  (if cleanup
   then Image_save replaced_image output_path (mkParams true (Some 85))
   else Image_save replaced_image output_path (mkParams false None)) ≫= fun _ =>
  print ("Processed image saved to " +:+ output_path).

(** Lines 40-42: [if resize_dim:] is true of every pair, only [None] skips
    the resize. *)
Definition resize_if_asked
    (replaced_image : Img rgb) (resize_dim : option (Z * Z)) : M (Img rgb) :=
  match resize_dim with
  | Some dim => Image_resize replaced_image dim
  | None => mret replaced_image
  end.

(** Lines 5-50. *)
Definition replace_colors
    (image_path : string) (black_color white_color : rgb) (output_path : string)
    (cleanup : bool) (resize_dim : option (Z * Z)) : M unit :=
  image ← Image_open image_path;
  let bw_image := binarize image in
  replaced_image ← lift (colorize black_color white_color bw_image);
  replaced_image ← resize_if_asked replaced_image resize_dim;
  save_and_report replaced_image output_path cleanup.

Definition image_suffixes : list string :=
  [".png"; ".jpg"; ".jpeg"; ".bmp"; ".gif"]%string.

Definition is_image_name (file_name : string) : bool :=
  endswith_any (lower file_name) image_suffixes.

(** Lines 63-66, the body of the loop over the folder. *)
Definition process_file
    (folder_path output_folder : string) (black_color white_color : rgb)
    (cleanup : bool) (resize_dim : option (Z * Z)) (file_name : string) : M unit :=
  if is_image_name file_name
  then
    let input_path := os_path_join folder_path file_name in
    let output_path := os_path_join output_folder file_name in
    replace_colors input_path black_color white_color output_path
      cleanup resize_dim
  else mret tt.

(** Lines 52-68. *)
Definition process_images_in_folder
    (folder_path : string) (black_color white_color : rgb)
    (cleanup : bool) (resize_dim : option (Z * Z)) : M unit :=
  let output_folder := os_path_join folder_path "processed_images" in
  os_makedirs output_folder ≫= fun _ =>
  names ← os_listdir folder_path;
  for_M names
    (process_file folder_path output_folder black_color white_color
       cleanup resize_dim) ≫= fun _ =>
  print ("All images processed and saved to " +:+ output_folder).

(** Lines written to standard output, and paths handed to [Image.open]. *)
Definition printed (w : World) : list string :=
  omap (fun e => match e with Printed line => Some line | _ => None end) (trace w).

Definition opened (w : World) : list string :=
  omap (fun e => match e with Opened path => Some path | _ => None end) (trace w).

End Pipeline.

Arguments mkWorld {P} files dirs trace.
Arguments files {P} w.
Arguments dirs {P} w.
Arguments trace {P} w.
Arguments printed {P} w.
Arguments opened {P} w.

(** The keyword arguments of the two encoding policies (lines 45-48). *)
Definition save_policy (cleanup : bool) : save_params :=
  if cleanup then mkParams true (Some 85) else mkParams false None.

(** ** A concrete Pillow to run the model on

    File contents are either a picture stored as it is or garbage; saving
    stores the raster unchanged; the stand-in kernel paints the new raster
    with the first pixel of the old one. *)
Definition flat_kernel (im : Img rgb) (new_size : Z * Z) : list rgb :=
  replicate (Z.to_nat (fst new_size * snd new_size)) (default (0, 0, 0) (head (data im))).

Definition raw : Pillow :=
  mkPillow (option Image) (fun b => b)
    (fun _ _ im => Some (Some (ModeRGB im))) flat_kernel.

Definition default_black_color : rgb := (0, 0, 0).
Definition default_white_color : rgb := (243, 239, 221).

(** A 2x2 grey picture with luminances 10, 200, 128, 129. *)
Definition gray2x2 : Image := ModeL (mkImg (2, 2) [10; 200; 128; 129]).

(** A 2x1 picture already in the default colours. *)
Definition cream2x1 : Img rgb := mkImg (2, 1) [(243, 239, 221); (0, 0, 0)].

(** The folder pics holds one unreadable and one good picture; [names] is
    what [os.listdir] reports for it, in its order. *)
Definition pics (names : list string) : World raw :=
  mkWorld
    {[ "pics/bad.png"%string := None; "pics/good.png"%string := Some gray2x2 ]}
    {[ "pics"%string := names ]}
    [].

(** ** The loop invariant of lines 36-38

    After the first [k] pixels in row order, [replaced_image] holds their
    new colours followed by the black that [Image.new] left. *)
Definition painted (black_color white_color : rgb) (bw_image : Img rgb) (k : nat)
  : Img rgb :=
  mkImg (size bw_image)
    (map (fun p => clip_rgb (replace_pixel_color black_color white_color p))
       (take k (data bw_image))
     ++ replicate (length (data bw_image) - k) (0, 0, 0)).

(** ** The interactive layer: [pick_color_or_default] and [main]

    The operator is modelled by what is typed ([stdin], one entry per
    line), what is chosen in the colour chooser and in the file dialogs (in
    the order the windows open; past the end of a list the window is
    cancelled) and whether a display is there for [Tk()].  [int] on a str
    is a parameter: [None] where it raises ValueError. *)

(** What ends a statement early: an exception of the pipeline or of [int],
    input at end of file, [exit()], [Tk()] without a display.  [OutOfFuel]
    is no behaviour of the script: it marks the bound of the model's
    [while True], shown below never to be met. *)
Inductive signal : Type :=
  | Exn (e : exn)
  | EOFError
  | SystemExit
  | TclError
  | OutOfFuel.

Inductive answer (A : Type) : Type :=
  | Value (a : A)
  | Stop (s : signal).
Arguments Value {A} a.
Arguments Stop {A} s.

(** [str.strip()] on ASCII text: the characters [str.isspace] accepts. *)
Definition is_space (c : ascii) : bool :=
  let n := nat_of_ascii c in
  ((9 <=? n)%nat && (n <=? 13)%nat) || ((28 <=? n)%nat && (n <=? 32)%nat).

Fixpoint lstrip (s : string) : string :=
  match s with
  | EmptyString => EmptyString
  | String c s' => if is_space c then lstrip s' else s
  end.

Fixpoint rstrip (s : string) : string :=
  match s with
  | EmptyString => EmptyString
  | String c s' =>
      match rstrip s' with
      | EmptyString => if is_space c then EmptyString else String c EmptyString
      | r => String c r
      end
  end.

Definition strip (s : string) : string := rstrip (lstrip s).

(** [str(t)] of a 3-tuple of ints, as an f-string prints it. *)
Definition str_of_rgb (c : rgb) : string :=
  let '(r, g, b) := c in
  "(" +:+ pretty r +:+ ", " +:+ pretty g +:+ ", " +:+ pretty b +:+ ")".

Section Interactive.

Context (P : Pillow).

(** [int(s)] for a str [s]. *)
Context (int_of_str : string -> option Z).

Record Session : Type := mkSession {
  world : World P;
  stdin : list string;
  chooser : list (option rgb);
  dialogs : list string;
  display : bool;
  prompts : list string
}.

Definition Act (A : Type) : Type := Session -> answer A * Session.

Definition Act_ret {A} (a : A) : Act A := fun s => (Value a, s).

Definition Act_bind {A B} (f : A -> Act B) (m : Act A) : Act B :=
  fun s =>
    match m s with
    | (Value a, s') => f a s'
    | (Stop sg, s') => (Stop sg, s')
    end.

#[local] Instance Act_mret : MRet Act := @Act_ret.
#[local] Instance Act_mbind : MBind Act := @Act_bind.

Definition stop {A} (sg : signal) : Act A := fun s => (Stop sg, s).

Definition with_world (s : Session) (w : World P) : Session :=
  mkSession w (stdin s) (chooser s) (dialogs s) (display s) (prompts s).

(** A statement of the pipeline, run from the interactive layer. *)
Definition run_core {A} (m : M P A) : Act A :=
  fun s =>
    match m (world s) with
    | (Ret a, w') => (Value a, with_world s w')
    | (Raise e, w') => (Stop (Exn e), with_world s w')
    end.

(** [input(prompt)]: the prompt is written, one line is read. *)
Definition input_ (prompt : string) : Act string :=
  fun s =>
    let shown := prompts s ++ [prompt] in
    match stdin s with
    | [] =>
        (Stop EOFError,
         mkSession (world s) [] (chooser s) (dialogs s) (display s) shown)
    | line :: rest =>
        (Value line,
         mkSession (world s) rest (chooser s) (dialogs s) (display s) shown)
    end.

(** [int(input(prompt))]; the text of the ValueError is never shown by the
    script, which catches it at both places. *)
Definition int_input (prompt : string) : Act Z :=
  line ← input_ prompt;
  match int_of_str line with
  | Some z => mret z
  | None => stop (Exn (ValueError ("invalid literal for int() with base 10: " +:+ line)))
  end.

(** [try: body except ValueError: handler] *)
Definition try_except_ValueError {A} (body handler : Act A) : Act A :=
  fun s =>
    match body s with
    | (Stop (Exn (ValueError _)), s') => handler s'
    | r => r
    end.

(** [colorchooser.askcolor(...)[0]], the bands passed through [int]. *)
Definition askcolor : Act (option rgb) :=
  fun s =>
    match chooser s with
    | [] => (Value None, s)
    | pick :: rest =>
        (Value pick,
         mkSession (world s) (stdin s) rest (dialogs s) (display s) (prompts s))
    end.

(** [filedialog.askopenfilename], [asksaveasfilename], [askdirectory]: the
    path chosen, empty when the window is cancelled. *)
Definition filedialog : Act string :=
  fun s =>
    match dialogs s with
    | [] => (Value ""%string, s)
    | path :: rest =>
        (Value path,
         mkSession (world s) (stdin s) (chooser s) rest (display s) (prompts s))
    end.

(** [root = Tk(); root.withdraw()] *)
Definition Tk : Act unit :=
  fun s => if display s then (Value tt, s) else (Stop TclError, s).

(** Lines 93-100, the body of [try] in the [while True] loop: [Some] is
    the colour to return, [None] another turn. *)
Definition ask_rgb (prompt : string) : Act (option rgb) :=
  r ← int_input ("Enter the red value for " +:+ prompt +:+ " (0-255): ");
  g ← int_input ("Enter the green value for " +:+ prompt +:+ " (0-255): ");
  b ← int_input ("Enter the blue value for " +:+ prompt +:+ " (0-255): ");
  if ((0 <=? r) && (r <=? 255)) && ((0 <=? g) && (g <=? 255))
     && ((0 <=? b) && (b <=? 255))
  then mret (Some (r, g, b))
  else
    run_core (print P "RGB values must be between 0 and 255. Try again.") ≫= fun _ =>
    mret None.

(** Lines 92-102: one turn of the loop. *)
Definition manual_turn (prompt : string) : Act (option rgb) :=
  try_except_ValueError (ask_rgb prompt)
    (run_core (print P "Invalid input. Please enter integers between 0 and 255.")
     ≫= fun _ => mret None).

(** [while True:] with a bound on the number of turns. *)
Fixpoint manual_loop (fuel : nat) (prompt : string) : Act rgb :=
  match fuel with
  | O => stop OutOfFuel
  | S fuel' =>
      turn ← manual_turn prompt;
      match turn with
      | Some color => mret color
      | None => manual_loop fuel' prompt
      end
  end.

(** Every turn reads a line or ends the loop, so one turn more than there
    are lines is enough. *)
Definition manual_entry (prompt : string) : Act rgb :=
  fun s => manual_loop (S (length (stdin s))) prompt s.

(** Lines 70-105. *)
Definition pick_color_or_default (prompt : string) (default_color : rgb) : Act rgb :=
  choice ←
    input_ ("Do you want to customize the color for " +:+ prompt
            +:+ "? (default is " +:+ str_of_rgb default_color
            +:+ "). Type 'yes' to customize or 'no' to use default: ");
  let choice := lower (strip choice) in
  if String.eqb choice "yes" then
    use_picker ←
      input_ ("Do you want to use the color picker for " +:+ prompt
              +:+ "? (yes or no): ");
    let use_picker := lower (strip use_picker) in
    if String.eqb use_picker "yes" then
      color_code ← askcolor;
      match color_code with
      | Some color => mret color
      | None =>
          run_core (print P ("No color selected for " +:+ prompt +:+ ". Exiting."))
          ≫= fun _ => stop SystemExit
      end
    else manual_entry prompt
  else mret default_color.

(** Lines 125-132. *)
Definition ask_resize_dim : Act (option (Z * Z)) :=
  wanted ← input_ "Do you want to resize the images? (yes or no): ";
  if String.eqb (lower (strip wanted)) "yes" then
    try_except_ValueError
      (width ← int_input "Enter the width in pixels: ";
       height ← int_input "Enter the height in pixels: ";
       mret (Some (width, height)))
      (run_core (print P "Invalid dimensions. Skipping resizing.") ≫= fun _ =>
       mret None)
  else mret None.

(** Lines 134-148. *)
Definition dispatch (black_color white_color : rgb) (cleanup : bool)
    (resize_dim : option (Z * Z)) : Act unit :=
  choice ←
    input_ "Do you want to process a single image or a folder? (type 'image' or 'folder'): ";
  let choice := lower (strip choice) in
  if String.eqb choice "image" then
    image_path ← filedialog;
    if negb (String.eqb image_path "") then
      output_path ← filedialog;
      if negb (String.eqb output_path "") then
        run_core (replace_colors P image_path black_color white_color output_path
                    cleanup resize_dim)
      else mret tt
    else mret tt
  else if String.eqb choice "folder" then
    folder_path ← filedialog;
    if negb (String.eqb folder_path "") then
      run_core (process_images_in_folder P folder_path black_color white_color
                  cleanup resize_dim)
    else mret tt
  else run_core (print P "Invalid choice. Please type 'image' or 'folder'.").

(** Lines 107-148. *)
Definition main : Act unit :=
  Tk ≫= fun _ =>
  run_core (print P "Select color for black:") ≫= fun _ =>
  black_color ← pick_color_or_default "black" (0, 0, 0);
  run_core (print P "Select color for white:") ≫= fun _ =>
  white_color ← pick_color_or_default "white" (243, 239, 221);
  cleanup ←
    input_ "Do you want to clean up the images (compress and remove metadata)? (yes or no): ";
  let cleanup := String.eqb (lower (strip cleanup)) "yes" in
  resize_dim ← ask_resize_dim;
  dispatch black_color white_color cleanup resize_dim.

End Interactive.

Arguments mkSession {P} world stdin chooser dialogs display prompts.
Arguments world {P} s.
Arguments stdin {P} s.
Arguments chooser {P} s.
Arguments dialogs {P} s.
Arguments display {P} s.
Arguments prompts {P} s.

(** A plain decimal reader to run the model on: digits, with an optional
    minus sign in front. *)
Definition digit_of (c : ascii) : option Z :=
  let n := nat_of_ascii c in
  if (48 <=? n)%nat && (n <=? 57)%nat then Some (Z.of_nat (n - 48)) else None.

Fixpoint read_digits (acc : Z) (s : string) : option Z :=
  match s with
  | EmptyString => Some acc
  | String c s' =>
      match digit_of c with
      | Some d => read_digits (10 * acc + d) s'
      | None => None
      end
  end.

Definition decimal (s : string) : option Z :=
  match s with
  | EmptyString => None
  | String "-" EmptyString => None
  | String "-" s' => option_map Z.opp (read_digits 0 s')
  | _ => read_digits 0 s
  end.

(** The operator at a terminal with a display, over the folder pics. *)
Definition at_terminal (typed : list string) (picked : list (option rgb))
    (chosen : list string) : Session raw :=
  mkSession (pics ["good.png"%string]) typed picked chosen true [].

(** ** The setup script, [config.py]

    The machine is what the script asks about: the platform, the path of
    the interpreter, whether [import tkinter] succeeds, what
    [platform.linux_distribution()] names ([None] where the interpreter
    has no such function, Python 3.8 and later) and, for every command, the
    return code of running it ([None] when the program cannot be
    started). *)
Module Config.

Inductive error : Type :=
  | CalledProcessError (cmd : list string) (returncode : Z)
  | FileNotFoundError (program : string)
  | AttributeError (name : string).

Inductive result (A : Type) : Type :=
  | Done (a : A)
  | Raised (e : error).
Arguments Done {A} a.
Arguments Raised {A} e.

Record Machine : Type := mkMachine {
  system : string;
  executable : string;
  tkinter : bool;
  linux_distribution : option string;
  returncode : list string -> option Z
}.

(** The commands started and the texts printed, in order. *)
Record Log : Type := mkLog { ran : list (list string); said : list string }.

Definition Setup (A : Type) : Type := Log -> result A * Log.

Definition ret {A} (a : A) : Setup A := fun l => (Done a, l).

Definition bind {A B} (m : Setup A) (f : A -> Setup B) : Setup B :=
  fun l =>
    match m l with
    | (Done a, l') => f a l'
    | (Raised e, l') => (Raised e, l')
    end.

Definition raise {A} (e : error) : Setup A := fun l => (Raised e, l).

Definition print (text : string) : Setup unit :=
  fun l => (Done tt, mkLog (ran l) (said l ++ [text])).

(** [subprocess.check_call(cmd)] and [subprocess.run(cmd, check=True)] *)
Definition check_call (m : Machine) (cmd : list string) : Setup unit :=
  fun l =>
    let l := mkLog (ran l ++ [cmd]) (said l) in
    match returncode m cmd with
    | None => (Raised (FileNotFoundError (hd ""%string cmd)), l)
    | Some 0 => (Done tt, l)
    | Some code => (Raised (CalledProcessError cmd code), l)
    end.

(** [try: body except subprocess.CalledProcessError: handler] *)
Definition try_except_CalledProcessError {A} (body handler : Setup A) : Setup A :=
  fun l =>
    match body l with
    | (Raised (CalledProcessError _ _), l') => handler l'
    | r => r
    end.

(** [sub in s] *)
Fixpoint contains (sub s : string) : bool :=
  String.prefix sub s
  || match s with
     | EmptyString => false
     | String _ s' => contains sub s'
     end.

(** Lines 6-14. *)
Definition install_package (m : Machine) (package : string) : Setup unit :=
  try_except_CalledProcessError
    (bind (check_call m [executable m; "-m"; "pip"; "install"; package]%string)
       (fun _ => print ("'" +:+ package +:+ "' installed successfully.")))
    (print ("Failed to install '" +:+ package +:+ "'. Please install it manually.")).

(** Lines 17-39. *)
Definition check_and_install_tkinter (m : Machine) : Setup unit :=
  if String.eqb (system m) "Linux" then
    if tkinter m then print "tkinter is already installed."
    else
      bind (print "tkinter is not installed. Attempting to install it...") (fun _ =>
      match linux_distribution m with
      | None => raise (AttributeError "linux_distribution")
      | Some name =>
          let distro := lower name in
          if contains "ubuntu" distro || contains "debian" distro then
            check_call m ["sudo"; "apt"; "install"; "-y"; "python3-tk"]%string
          else if contains "fedora" distro || contains "redhat" distro then
            check_call m ["sudo"; "dnf"; "install"; "-y"; "python3-tkinter"]%string
          else if contains "arch" distro then
            check_call m ["sudo"; "pacman"; "-S"; "--noconfirm"; "tk"]%string
          else print "Please install 'tkinter' manually for your Linux distribution."
      end)
  else print "tkinter is included by default on non-Linux systems.".

(** [for package in packages: install_package(package)] *)
Fixpoint install_all (m : Machine) (packages : list string) : Setup unit :=
  match packages with
  | [] => ret tt
  | package :: rest => bind (install_package m package) (fun _ => install_all m rest)
  end.

(** Lines 42-58. *)
Definition main (m : Machine) : Setup unit :=
  bind
    (try_except_CalledProcessError
       (bind (check_call m [executable m; "-m"; "pip"; "install"; "--upgrade"; "pip"]%string)
          (fun _ => print "pip updated successfully."))
       (print "Failed to update pip. Please update it manually."))
    (fun _ =>
  let required_packages := ["pillow"%string] in
  bind (install_all m required_packages) (fun _ =>
  bind (check_and_install_tkinter m) (fun _ =>
  print (String "010" "Setup completed successfully!")))).

(** A Debian machine without tkinter on which every command fails with
    return code 1, and the same machine with tkinter. *)
Definition failing_debian (with_tkinter : bool) : Machine :=
  mkMachine "Linux" "/usr/bin/python3" with_tkinter (Some "Debian GNU/Linux"%string)
    (fun _ => Some 1).

End Config.

(** The part of a session the interactive layer leaves alone until it
    calls the pipeline: the files, the directories, what has been opened
    and the answers waiting in the file dialogs. *)
Definition untouched {P : Pillow} (s s' : Session P) : Prop :=
  files (world s') = files (world s)
  /\ dirs (world s') = dirs (world s)
  /\ opened (world s') = opened (world s)
  /\ dialogs s' = dialogs s.

Definition quiet {P : Pillow} {A} (act : Act P A) : Prop :=
  forall s, untouched s (snd (act s)).

(** One step into a sequence of statements. *)
Ltac bind_step := unfold mbind, M_mbind; unfold M_bind at 1.
Ltac act_step := unfold mbind, Act_mbind; unfold Act_bind at 1.

(** * Properties *)

(** ** The model runs *)

Example colorize_2x1 :
  colorize (1, 2, 3) (4, 5, 6) (mkImg (2, 1) [(255, 255, 255); (0, 0, 0)])
  = Ret (mkImg (2, 1) [(4, 5, 6); (1, 2, 3)]).
Proof. reflexivity. Qed.

Example join_plain : os_path_join "pics" "a.PNG" = "pics/a.PNG"%string.
Proof. reflexivity. Qed.

Example join_slash : os_path_join "pics/" "a.PNG" = "pics/a.PNG"%string.
Proof. reflexivity. Qed.

Example upper_case_suffix : is_image_name "a.PNG" = true.
Proof. reflexivity. Qed.

Example folder_not_a_picture : is_image_name "processed_images" = false.
Proof. reflexivity. Qed.

Example luminance_of_cream : rgb2l default_white_color = 238.
Proof. reflexivity. Qed.

Example run_good_alone :
  let r := process_images_in_folder raw "pics" default_black_color
             default_white_color false None (pics ["good.png"%string]) in
  fst r = Ret tt
  /\ files (snd r) !! "pics/processed_images/good.png"%string
     = Some (Some (ModeRGB (mkImg (2, 2)
         [(0, 0, 0); (243, 239, 221); (0, 0, 0); (243, 239, 221)])))
  /\ printed (snd r)
     = ["Processed image saved to pics/processed_images/good.png";
        "All images processed and saved to pics/processed_images"]%string.
Proof. vm_compute. auto. Qed.

(** ** Bytes, clipping and the luminance *)

Lemma map_is_fmap {A B} (f : A -> B) (l : list A) : map f l = f <$> l.
Proof. reflexivity. Qed.

Lemma is_u8_range v : is_u8 v = true <-> 0 <= v <= 255.
Proof. unfold is_u8. rewrite andb_true_iff, !Z.leb_le. tauto. Qed.

Lemma clip8_u8 v : is_u8 v = true -> clip8 v = v.
Proof.
  intros [H0 H1]%is_u8_range. unfold clip8.
  destruct (Z.ltb_spec v 0); [lia|]. destruct (Z.ltb_spec 255 v); [lia|]. reflexivity.
Qed.

Lemma clip_rgb_valid c : valid_color c = true -> clip_rgb c = c.
Proof.
  destruct c as [[r g] b]. unfold valid_color, clip_rgb.
  rewrite !andb_true_iff. intros [[Hr Hg] Hb].
  rewrite !clip8_u8 by assumption. reflexivity.
Qed.

Lemma luma_range r g b :
  0 <= r <= 255 -> 0 <= g <= 255 -> 0 <= b <= 255 ->
  0 <= Z.shiftr (L24 r g b) 16 <= 255.
Proof.
  intros Hr Hg Hb. rewrite Z.shiftr_div_pow2 by lia.
  change (2 ^ 16) with 65536. unfold L24. split.
  - apply Z.div_pos; lia.
  - apply Z.lt_succ_r, Z.div_lt_upper_bound; lia.
Qed.

Lemma rgb2l_range p : valid_color p = true -> 0 <= rgb2l p <= 255.
Proof.
  destruct p as [[r g] b]. unfold valid_color, rgb2l.
  rewrite !andb_true_iff, !is_u8_range. intros [[Hr Hg] Hb].
  now apply luma_range.
Qed.

Lemma rgba2l_range p : valid_rgba p = true -> 0 <= rgba2l p <= 255.
Proof.
  destruct p as [[[r g] b] a]. unfold valid_rgba, rgba2l.
  rewrite !andb_true_iff, !is_u8_range. intros [[[Hr Hg] Hb] _].
  now apply luma_range.
Qed.

Lemma bit2l_range v : 0 <= bit2l v <= 255.
Proof. unfold bit2l. destruct (v =? 0); lia. Qed.

(** A grey pixel keeps its value under the luma transform. *)
Lemma rgb2l_gray v : rgb2l (v, v, v) = v.
Proof.
  unfold rgb2l, L24. rewrite Z.shiftr_div_pow2 by lia. change (2 ^ 16) with 65536.
  symmetry. apply (Z.div_unique _ _ _ 32768); lia.
Qed.

(** ** Well-formed rasters *)

Lemma wf_img_inv {A} (ok : A -> bool) (im : Img A) :
  wf_img ok im = true ->
  0 <= width im /\ 0 <= height im
  /\ length (data im) = Z.to_nat (width im * height im)
  /\ Forall (fun p => ok p = true) (data im).
Proof.
  unfold wf_img. rewrite !andb_true_iff, !Z.leb_le, Z.eqb_eq, forallb_forall.
  intros [[[Hw Hh] Hlen] Hok]. repeat split; try assumption.
  - lia.
  - apply Forall_forall. intros p Hp. apply Hok, list_elem_of_In, Hp.
Qed.

Lemma convert_L_size image : size (Image_convert_L image) = Image_size image.
Proof. destruct image; reflexivity. Qed.

Lemma convert_L_length image :
  wf_image image = true ->
  0 <= fst (Image_size image) /\ 0 <= snd (Image_size image)
  /\ length (data (Image_convert_L image))
     = Z.to_nat (fst (Image_size image) * snd (Image_size image)).
Proof.
  destruct image as [im|im|im|im]; simpl; intros (Hw & Hh & Hlen & _)%wf_img_inv;
    rewrite ?length_map; auto.
Qed.

(** Every luminance is a byte. *)
Lemma convert_L_range image :
  wf_image image = true ->
  Forall (fun v => 0 <= v <= 255) (data (Image_convert_L image)).
Proof.
  destruct image as [im|im|im|im]; simpl; intros (_ & _ & _ & Hok)%wf_img_inv.
  - apply Forall_forall. intros v (u & <- & _)%list_elem_of_In%in_map_iff.
    apply bit2l_range.
  - eapply Forall_impl; [exact Hok|]. intros v. apply is_u8_range.
  - rewrite map_is_fmap. apply Forall_fmap.
    eapply Forall_impl; [exact Hok|]. intros p. apply rgb2l_range.
  - rewrite map_is_fmap. apply Forall_fmap.
    eapply Forall_impl; [exact Hok|]. intros p. apply rgba2l_range.
Qed.

(** ** The point table *)

Lemma point_table_lookup (f : Z -> Z) v :
  0 <= v <= 255 -> point_table f !! Z.to_nat v = Some (clip8 (f v)).
Proof.
  intros Hv. unfold point_table, range. rewrite map_is_fmap, list_lookup_fmap.
  assert (seqZ 0 256 !! Z.to_nat v = Some v) as ->; [|reflexivity].
  apply lookup_seqZ. lia.
Qed.

Lemma threshold_lookup v :
  0 <= v <= 255 ->
  default 0 (point_table (fun x => if x >? threshold then 255 else 0) !! Z.to_nat v)
  = if v >? threshold then 255 else 0.
Proof.
  intros Hv. rewrite point_table_lookup by assumption. simpl.
  destruct (v >? threshold); reflexivity.
Qed.

(** Whatever the index, the table holds 0 or 255. *)
Lemma threshold_table_binary (n : nat) :
  let c := default 0 (point_table (fun x => if x >? threshold then 255 else 0) !! n) in
  c = 0 \/ c = 255.
Proof.
  simpl. unfold point_table. rewrite map_is_fmap, list_lookup_fmap.
  destruct (range 256 !! n) as [i|]; simpl; [|auto].
  destruct (i >? threshold); auto.
Qed.

(** ** The colour substitution loop *)

Lemma pixel_index_inside {A} (im : Img A) x y :
  0 <= x < width im -> 0 <= y < height im ->
  pixel_index im (x, y) = Some (Z.to_nat (y * width im + x)).
Proof.
  intros Hx Hy. unfold pixel_index.
  destruct (Z.ltb_spec x 0); [lia|]. destruct (Z.ltb_spec y 0); [lia|].
  destruct (Z.leb_spec 0 x); [|lia]. destruct (Z.ltb_spec x (width im)); [|lia].
  destruct (Z.leb_spec 0 y); [|lia]. destruct (Z.ltb_spec y (height im)); [|lia].
  reflexivity.
Qed.

Section Colorize.

Variables black_color white_color : rgb.
Variable bw_image : Img rgb.
Hypothesis width_nonneg : 0 <= width bw_image.
Hypothesis height_nonneg : 0 <= height bw_image.
Hypothesis data_length :
  length (data bw_image) = Z.to_nat (width bw_image * height bw_image).

Lemma painted_start :
  Image_new_RGB (size bw_image) = painted black_color white_color bw_image 0%nat.
Proof.
  unfold painted, Image_new_RGB. simpl. rewrite Nat.sub_0_r.
  fold (width bw_image) (height bw_image). rewrite data_length. reflexivity.
Qed.

Lemma painted_end :
  painted black_color white_color bw_image (length (data bw_image))
  = mkImg (size bw_image)
      (map (fun p => clip_rgb (replace_pixel_color black_color white_color p))
         (data bw_image)).
Proof.
  unfold painted. rewrite take_ge by lia. rewrite Nat.sub_diag. simpl.
  rewrite app_nil_r. reflexivity.
Qed.

Lemma painted_length k :
  (k <= length (data bw_image))%nat ->
  length (data (painted black_color white_color bw_image k)) = length (data bw_image).
Proof.
  intros Hk. unfold painted. simpl.
  rewrite length_app, length_map, length_take, length_replicate. lia.
Qed.

(** One turn of the inner loop paints pixel [y * width + x]. *)
Lemma paint_pixel x y :
  0 <= x < width bw_image -> 0 <= y < height bw_image ->
  (pixel ← PixelAccess_getitem bw_image (x, y);
   Image_putpixel
     (painted black_color white_color bw_image (Z.to_nat (y * width bw_image + x)))
     (x, y) (replace_pixel_color black_color white_color pixel))
  = Ret (painted black_color white_color bw_image
           (S (Z.to_nat (y * width bw_image + x)))).
Proof.
  intros Hx Hy. set (k := Z.to_nat (y * width bw_image + x)).
  assert (k < length (data bw_image))%nat as Hk by (subst k; nia).
  destruct (lookup_lt_is_Some_2 _ _ Hk) as [p Hp].
  unfold PixelAccess_getitem. rewrite pixel_index_inside by assumption.
  fold k. rewrite Hp. simpl. unfold mbind, outcome_mbind, outcome_bind.
  unfold Image_putpixel.
  assert (pixel_index (painted black_color white_color bw_image k) (x, y) = Some k)
    as -> by (apply (pixel_index_inside (painted _ _ _ k)); assumption).
  rewrite painted_length by lia.
  destruct (decide (k < length (data bw_image))%nat); [|lia].
  f_equal. unfold painted. simpl. f_equal.
  rewrite (take_S_r _ _ _ Hp), map_app. simpl.
  rewrite insert_app_r_alt by (rewrite length_map, length_take; lia).
  rewrite length_map, length_take.
  replace (k - k `min` length (data bw_image))%nat with 0%nat by lia.
  replace (length (data bw_image) - k)%nat
    with (S (length (data bw_image) - S k)) by lia.
  simpl. rewrite <- app_assoc. reflexivity.
Qed.

(** The inner loop from column [x0] on, [n] columns. *)
Lemma paint_columns y (n : nat) : forall x0,
  0 <= y < height bw_image -> 0 <= x0 -> x0 + Z.of_nat n <= width bw_image ->
  for_each (seqZ x0 (Z.of_nat n))
    (fun x replaced_image =>
       pixel ← PixelAccess_getitem bw_image (x, y);
       Image_putpixel replaced_image (x, y)
         (replace_pixel_color black_color white_color pixel))
    (painted black_color white_color bw_image (Z.to_nat (y * width bw_image + x0)))
  = Ret (painted black_color white_color bw_image
           (Z.to_nat (y * width bw_image + x0) + n)).
Proof.
  induction n as [|n IH]; intros x0 Hy Hx0 Hn.
  - simpl. rewrite Nat.add_0_r. reflexivity.
  - rewrite seqZ_cons by lia. simpl for_each.
    rewrite paint_pixel by lia. simpl.
    replace (Z.pred (Z.of_nat (S n))) with (Z.of_nat n) by lia.
    replace (S (Z.to_nat (y * width bw_image + x0)))
      with (Z.to_nat (y * width bw_image + Z.succ x0)) by nia.
    rewrite IH by lia. f_equal. f_equal. nia.
Qed.

(** The outer loop from row [y0] on, [n] rows. *)
Lemma paint_rows (n : nat) : forall y0,
  0 <= y0 -> y0 + Z.of_nat n <= height bw_image ->
  for_each (seqZ y0 (Z.of_nat n))
    (fun y replaced_image =>
       for_each (range (fst (size bw_image)))
         (fun x replaced_image =>
            pixel ← PixelAccess_getitem bw_image (x, y);
            Image_putpixel replaced_image (x, y)
              (replace_pixel_color black_color white_color pixel))
         replaced_image)
    (painted black_color white_color bw_image (Z.to_nat (y0 * width bw_image)))
  = Ret (painted black_color white_color bw_image
           (Z.to_nat ((y0 + Z.of_nat n) * width bw_image))).
Proof.
  induction n as [|n IH]; intros y0 Hy0 Hn.
  - simpl. rewrite Z.add_0_r. reflexivity.
  - rewrite seqZ_cons by lia. simpl for_each. unfold range.
    fold (width bw_image).
    rewrite <- (Z2Nat.id (width bw_image)) at 1 by assumption.
    replace (y0 * width bw_image) with (y0 * width bw_image + 0) at 1 by lia.
    rewrite paint_columns by lia. simpl.
    replace (Z.pred (Z.of_nat (S n))) with (Z.of_nat n) by lia.
    replace (Z.to_nat (y0 * width bw_image + 0) + Z.to_nat (width bw_image))%nat
      with (Z.to_nat (Z.succ y0 * width bw_image)) by nia.
    rewrite IH by lia. f_equal. f_equal. f_equal. lia.
Qed.

(** The loop never raises and maps [replace_pixel_color] over the pixels. *)
Lemma colorize_map :
  colorize black_color white_color bw_image
  = Ret (mkImg (size bw_image)
           (map (fun p => clip_rgb (replace_pixel_color black_color white_color p))
              (data bw_image))).
Proof.
  unfold colorize. rewrite painted_start. unfold range.
  fold (height bw_image).
  rewrite <- (Z2Nat.id (height bw_image)) at 1 by assumption.
  change 0%nat with (Z.to_nat (0 * width bw_image)) at 1.
  rewrite paint_rows by lia.
  rewrite <- painted_end. f_equal. f_equal. rewrite data_length. nia.
Qed.

End Colorize.

(** ** The threshold *)

Lemma classify_size image : size (classify image) = Image_size image.
Proof. unfold classify, Image_point_1. simpl. apply convert_L_size. Qed.

Lemma classify_lookup image (i : nat) lum :
  wf_image image = true ->
  data (Image_convert_L image) !! i = Some lum ->
  data (classify image) !! i = Some (if lum >? threshold then 255 else 0).
Proof.
  intros Hwf Hlum. unfold classify, Image_point_1. simpl.
  rewrite map_is_fmap, list_lookup_fmap, Hlum. simpl. f_equal.
  apply threshold_lookup.
  eapply (proj1 (Forall_forall _ _) (convert_L_range image Hwf)).
  eapply list_elem_of_lookup_2, Hlum.
Qed.

Lemma binarize_size image : size (binarize image) = Image_size image.
Proof. unfold binarize, Image_convert_1_RGB. simpl. apply classify_size. Qed.

Lemma binarize_lookup image (i : nat) lum :
  wf_image image = true ->
  data (Image_convert_L image) !! i = Some lum ->
  data (binarize image) !! i
  = Some (if lum >? threshold then (255, 255, 255) else (0, 0, 0)).
Proof.
  intros Hwf Hlum.
  change (data (binarize image)) with (bit2rgb <$> data (classify image)).
  rewrite list_lookup_fmap, (classify_lookup image i lum Hwf Hlum).
  simpl. destruct (lum >? threshold); reflexivity.
Qed.

Lemma binarize_data image :
  wf_image image = true ->
  data (binarize image)
  = map (fun lum => if lum >? threshold then (255, 255, 255) else (0, 0, 0))
      (data (Image_convert_L image)).
Proof.
  intros Hwf. apply list_eq. intros i. rewrite (map_is_fmap _ (data _)), list_lookup_fmap.
  destruct (data (Image_convert_L image) !! i) as [lum|] eqn:Hlum.
  - apply binarize_lookup; assumption.
  - simpl. apply lookup_ge_None. apply lookup_ge_None in Hlum.
    unfold binarize, Image_convert_1_RGB, classify, Image_point_1. simpl.
    rewrite !length_map. exact Hlum.
Qed.

Lemma binarize_shape image :
  wf_image image = true ->
  0 <= width (binarize image) /\ 0 <= height (binarize image)
  /\ length (data (binarize image))
     = Z.to_nat (width (binarize image) * height (binarize image)).
Proof.
  intros Hwf. unfold width, height. rewrite binarize_size.
  destruct (convert_L_length image Hwf) as (Hw & Hh & Hlen).
  repeat split; try assumption.
  unfold binarize, Image_convert_1_RGB, classify, Image_point_1. simpl.
  rewrite !length_map. exact Hlen.
Qed.

Lemma binarize_binary image :
  Forall (fun p => p = (0, 0, 0) \/ p = (255, 255, 255)) (data (binarize image)).
Proof.
  unfold binarize, Image_convert_1_RGB, classify, Image_point_1. simpl.
  rewrite !map_is_fmap. apply Forall_fmap, Forall_fmap, Forall_forall.
  intros v _. simpl.
  destruct (threshold_table_binary (Z.to_nat v)) as [-> | ->]; auto.
Qed.

(** On a well-formed picture, lines 19-38 never raise and replace every
    pixel of the binarized picture. *)
Lemma colorize_binarize black_color white_color image :
  wf_image image = true ->
  colorize black_color white_color (binarize image)
  = Ret (mkImg (Image_size image)
           (map (fun p => clip_rgb (replace_pixel_color black_color white_color p))
              (data (binarize image)))).
Proof.
  intros Hwf. destruct (binarize_shape image Hwf) as (Hw & Hh & Hlen).
  rewrite colorize_map by assumption. rewrite binarize_size. reflexivity.
Qed.

(** C1: a pixel is classified light exactly when its luminance, the value
    [convert("L")] gives it, is strictly above 128; a pixel of luminance
    exactly 128 is classified dark. *)
Theorem light_iff_luminance_above_128 image (i : nat) lum :
  wf_image image = true ->
  data (Image_convert_L image) !! i = Some lum ->
  exists c,
    data (classify image) !! i = Some c
    /\ (is_light c = true <-> 128 < lum)
    /\ (lum = 128 -> is_light c = false).
Proof.
  intros Hwf Hlum. eexists. split; [apply classify_lookup; eassumption|].
  unfold threshold, is_light.
  destruct (Z.gtb_spec lum 128); simpl; (split; [split|]); intros;
    (lia || discriminate || reflexivity).
Qed.

Lemma light_iff_luminance_above_128_witness :
  exists c,
    data (classify gray2x2) !! 2%nat = Some c
    /\ (is_light c = true <-> 128 < 128)
    /\ (128 = 128 -> is_light c = false).
Proof.
  apply (light_iff_luminance_above_128 gray2x2 2 128); reflexivity.
Defined.

(** C9: after lines 19-24 every pixel is exactly (0,0,0) or (255,255,255),
    so [replace_pixel_color] always leaves through one of its two tests:
    on these pixels it is the two-way choice, its last [return pixel] is
    never reached. *)
Theorem binarize_only_black_and_white image :
  Forall (fun p => p = (0, 0, 0) \/ p = (255, 255, 255)) (data (binarize image))
  /\ forall black_color white_color p,
       p ∈ data (binarize image) ->
       (p = (255, 255, 255) \/ p = (0, 0, 0))
       /\ replace_pixel_color black_color white_color p
          = if decide (p = (255, 255, 255)) then white_color else black_color.
Proof.
  split; [apply binarize_binary|].
  intros black_color white_color p Hp.
  pose proof (proj1 (Forall_forall _ _) (binarize_binary image) p Hp) as [-> | ->];
    split; auto.
Qed.

(** C3: whatever the picture and the two colours, the image the colour
    substitution produces (before any resize) holds no pixel other than
    [black_color] and [white_color]. *)
Theorem colorize_two_colors image black_color white_color :
  wf_image image = true ->
  valid_color black_color = true ->
  valid_color white_color = true ->
  exists replaced_image,
    colorize black_color white_color (binarize image) = Ret replaced_image
    /\ size replaced_image = Image_size image
    /\ Forall (fun p => p = black_color \/ p = white_color) (data replaced_image).
Proof.
  intros Hwf Hb Hw. eexists. split; [apply colorize_binarize, Hwf|].
  split; [reflexivity|]. simpl.
  rewrite map_is_fmap. apply Forall_fmap.
  eapply Forall_impl; [apply binarize_binary|]. simpl.
  intros p [-> | ->]; unfold replace_pixel_color; simpl.
  - left. apply clip_rgb_valid, Hb.
  - right. apply clip_rgb_valid, Hw.
Qed.

Lemma colorize_two_colors_witness :
  exists replaced_image,
    colorize (10, 20, 30) default_white_color (binarize gray2x2) = Ret replaced_image
    /\ size replaced_image = Image_size gray2x2
    /\ Forall (fun p => p = (10, 20, 30) \/ p = default_white_color) (data replaced_image).
Proof.
  apply (colorize_two_colors gray2x2 (10, 20, 30) default_white_color); reflexivity.
Defined.

(** ** Running [replace_colors] *)

Section Runs.

Context (P : Pillow).

Lemma save_and_report_run (im : Img rgb) output_path cleanup (w : World P) :
  save_and_report P im output_path cleanup w
  = match encode P output_path (save_policy cleanup) im with
    | Some b =>
        (Ret tt,
         mkWorld (<[output_path := b]> (files w)) (dirs w)
           (trace w ++ [Saved output_path (save_policy cleanup);
                        Printed ("Processed image saved to " +:+ output_path)]))
    | None =>
        (Raise (OSError output_path),
         log P (Saved output_path (save_policy cleanup)) w)
    end.
Proof.
  unfold save_and_report, mbind, M_mbind, M_bind, Image_save, print, log.
  destruct cleanup; simpl;
    destruct (encode P output_path _ im); simpl; rewrite <- ?app_assoc; reflexivity.
Qed.


(** Once the picture is decoded, lines 19-38 cannot fail: the run is the
    resize (if any) and the save of the recoloured raster. *)
Lemma replace_colors_run (w : World P) image_path b image
    black_color white_color output_path cleanup resize_dim :
  files w !! image_path = Some b ->
  decode P b = Some image ->
  wf_image image = true ->
  replace_colors P image_path black_color white_color output_path cleanup resize_dim w
  = M_bind P (fun replaced_image => save_and_report P replaced_image output_path cleanup)
      (resize_if_asked P
         (mkImg (Image_size image)
            (map (fun p => clip_rgb (replace_pixel_color black_color white_color p))
               (data (binarize image))))
         resize_dim)
      (log P (Opened image_path) w).
Proof.
  intros Hfile Hdec Hwf.
  unfold replace_colors. bind_step. unfold Image_open.
  simpl. rewrite Hfile, Hdec. unfold M_bind at 1. unfold lift.
  rewrite colorize_binarize by assumption. reflexivity.
Qed.

Lemma replace_colors_no_resize (w : World P) image_path b image
    black_color white_color output_path cleanup :
  files w !! image_path = Some b ->
  decode P b = Some image ->
  wf_image image = true ->
  replace_colors P image_path black_color white_color output_path cleanup None w
  = save_and_report P
      (mkImg (Image_size image)
         (map (fun p => clip_rgb (replace_pixel_color black_color white_color p))
            (data (binarize image))))
      output_path cleanup (log P (Opened image_path) w).
Proof.
  intros Hfile Hdec Hwf.
  rewrite (replace_colors_run w image_path b image) by assumption. reflexivity.
Qed.

End Runs.

(** The recoloured pixel as a function of the luminance. *)
Lemma recolored_lookup image black_color white_color (i : nat) lum :
  wf_image image = true ->
  valid_color black_color = true ->
  valid_color white_color = true ->
  data (Image_convert_L image) !! i = Some lum ->
  map (fun p => clip_rgb (replace_pixel_color black_color white_color p))
    (data (binarize image)) !! i
  = Some (if lum >? threshold then white_color else black_color).
Proof.
  intros Hwf Hb Hw Hlum.
  rewrite map_is_fmap, list_lookup_fmap, (binarize_lookup image i lum Hwf Hlum).
  simpl. f_equal. destruct (lum >? threshold); unfold replace_pixel_color; simpl;
    apply clip_rgb_valid; assumption.
Qed.

Lemma recolored_data image black_color white_color :
  wf_image image = true ->
  valid_color black_color = true ->
  valid_color white_color = true ->
  map (fun p => clip_rgb (replace_pixel_color black_color white_color p))
    (data (binarize image))
  = map (fun lum => if lum >? threshold then white_color else black_color)
      (data (Image_convert_L image)).
Proof.
  intros Hwf Hb Hw. rewrite binarize_data by assumption. rewrite map_map.
  apply map_ext. intros lum.
  destruct (lum >? threshold); unfold replace_pixel_color; simpl;
    apply clip_rgb_valid; assumption.
Qed.

(** C2: in a run without resize, the image handed to the save has the size
    of the source and, at every pixel, [black_color] where the luminance is
    in 0..127 and [white_color] where it is in 129..255; a 2x2 picture of
    luminances 10, 200, 128, 129 under the default colours comes out as
    (0,0,0), (243,239,221), (0,0,0), (243,239,221). *)
Theorem dark_and_light_pixels (P : Pillow) (w : World P) image_path b image
    black_color white_color output_path cleanup :
  files w !! image_path = Some b ->
  decode P b = Some image ->
  wf_image image = true ->
  valid_color black_color = true ->
  valid_color white_color = true ->
  exists replaced_image,
    replace_colors P image_path black_color white_color output_path cleanup None w
    = save_and_report P replaced_image output_path cleanup
        (log P (Opened image_path) w)
    /\ size replaced_image = Image_size image
    /\ (forall (i : nat) lum,
          data (Image_convert_L image) !! i = Some lum ->
          (0 <= lum <= 127 -> data replaced_image !! i = Some black_color)
          /\ (129 <= lum <= 255 -> data replaced_image !! i = Some white_color))
    /\ (black_color = default_black_color ->
        white_color = default_white_color ->
        Image_size image = (2, 2) ->
        data (Image_convert_L image) = [10; 200; 128; 129] ->
        data replaced_image
        = [(0, 0, 0); (243, 239, 221); (0, 0, 0); (243, 239, 221)]).
Proof.
  intros Hfile Hdec Hwf Hb Hw. eexists.
  split; [apply (replace_colors_no_resize P w image_path b image); assumption|].
  split; [reflexivity|]. cbn [data]. split.
  - intros i lum Hlum.
    rewrite (recolored_lookup image black_color white_color i lum) by assumption.
    unfold threshold. split; intros Hr; destruct (Z.gtb_spec lum 128); (reflexivity || lia).
  - intros -> -> _ Hl. rewrite recolored_data by assumption. rewrite Hl. reflexivity.
Qed.

Lemma dark_and_light_pixels_witness :
  exists replaced_image,
    replace_colors raw "pics/good.png" default_black_color default_white_color
      "out.png" false None (pics [])
    = save_and_report raw replaced_image "out.png" false
        (log raw (Opened "pics/good.png") (pics []))
    /\ size replaced_image = Image_size gray2x2
    /\ (forall (i : nat) lum,
          data (Image_convert_L gray2x2) !! i = Some lum ->
          (0 <= lum <= 127 -> data replaced_image !! i = Some default_black_color)
          /\ (129 <= lum <= 255 -> data replaced_image !! i = Some default_white_color))
    /\ (default_black_color = default_black_color ->
        default_white_color = default_white_color ->
        Image_size gray2x2 = (2, 2) ->
        data (Image_convert_L gray2x2) = [10; 200; 128; 129] ->
        data replaced_image
        = [(0, 0, 0); (243, 239, 221); (0, 0, 0); (243, 239, 221)]).
Proof.
  apply (dark_and_light_pixels raw (pics []) "pics/good.png" (Some gray2x2) gray2x2
           default_black_color default_white_color "out.png" false);
    reflexivity.
Defined.



(** C7: on an RGB picture whose pixels are all (0,0,0) or (243,239,221), a
    run with these two colours and no resize hands to the save the very
    same raster. *)
Theorem default_colors_idempotent (P : Pillow) (w : World P) image_path b
    (im : Img rgb) output_path cleanup :
  files w !! image_path = Some b ->
  decode P b = Some (ModeRGB im) ->
  wf_image (ModeRGB im) = true ->
  Forall (fun p => p = (0, 0, 0) \/ p = (243, 239, 221)) (data im) ->
  replace_colors P image_path (0, 0, 0) (243, 239, 221) output_path cleanup None w
  = save_and_report P im output_path cleanup (log P (Opened image_path) w).
Proof.
  intros Hfile Hdec Hwf Hbi.
  rewrite (replace_colors_no_resize P w image_path b (ModeRGB im)) by assumption.
  f_equal. rewrite recolored_data by (assumption || reflexivity).
  destruct im as [sz d]. cbn [Image_size Image_convert_L size data] in *. f_equal.
  rewrite map_map. rewrite <- (map_id d) at 2.
  rewrite !map_is_fmap. apply Forall_fmap_ext.
  eapply Forall_impl; [exact Hbi|]. intros p [-> | ->]; reflexivity.
Qed.

Lemma default_colors_idempotent_witness :
  replace_colors raw "again.png" (0, 0, 0) (243, 239, 221) "out.png" false None
    (mkWorld {[ "again.png"%string := Some (ModeRGB cream2x1) ]} ∅ [])
  = save_and_report raw cream2x1 "out.png" false
      (log raw (Opened "again.png")
         (mkWorld {[ "again.png"%string := Some (ModeRGB cream2x1) ]} ∅ [])).
Proof.
  apply (default_colors_idempotent raw _ "again.png" (Some (ModeRGB cream2x1)) cream2x1);
    try reflexivity.
  repeat (apply List.Forall_cons; [auto|]). apply List.Forall_nil.
Defined.




(** ** Running [process_images_in_folder] *)

Lemma string_length_app (s t : string) :
  String.length (s +:+ t) = (String.length s + String.length t)%nat.
Proof.
  induction s as [|c s IH]; [reflexivity|].
  change (String c s +:+ t) with (String c (s +:+ t)).
  cbn [String.length]. rewrite IH. reflexivity.
Qed.

(** The output folder is never the folder itself. *)
Lemma output_folder_differs folder_path :
  os_path_join folder_path "processed_images" <> folder_path.
Proof.
  intros Heq. apply (f_equal String.length) in Heq. revert Heq.
  unfold os_path_join. change (startswith "processed_images" "/") with false. cbv iota.
  destruct (String.eqb folder_path "" || endswith folder_path "/");
    rewrite !string_length_app; cbn [String.length]; lia.
Qed.

(** An entry named processed_images in the listing is skipped by the loop,
    wherever it stands. *)
Lemma output_folder_entry_skipped (l1 l2 : list string) :
  List.filter is_image_name (l1 ++ "processed_images"%string :: l2)
  = List.filter is_image_name (l1 ++ l2).
Proof. rewrite !List.filter_app. reflexivity. Qed.

Section Batch.

Context (P : Pillow).

Lemma for_M_app {B} (l1 l2 : list B) (body : B -> M P unit) (w : World P) :
  for_M P (l1 ++ l2) body w
  = match for_M P l1 body w with
    | (Ret _, w1) => for_M P l2 body w1
    | (Raise e, w1) => (Raise e, w1)
    end.
Proof.
  revert w. induction l1 as [|b l1 IH]; intros w; [reflexivity|].
  cbn [app for_M]. unfold mbind, M_mbind, M_bind.
  destruct (body b w) as [[[]|e] w1]; [apply IH|reflexivity].
Qed.

(** The world in which the loop over the folder starts. *)
Lemma enumerate_folder (w : World P) folder_path output_folder names :
  output_folder <> folder_path ->
  files w !! output_folder = None ->
  dirs w !! folder_path = Some names ->
  os_listdir P folder_path (snd (os_makedirs P output_folder w))
  = (Ret names, snd (os_listdir P folder_path (snd (os_makedirs P output_folder w))))
  /\ fst (os_makedirs P output_folder w) = Ret tt
  /\ printed (snd (os_listdir P folder_path (snd (os_makedirs P output_folder w))))
     = printed w
  /\ opened (snd (os_listdir P folder_path (snd (os_makedirs P output_folder w))))
     = opened w.
Proof.
  intros Hne Hfile Hdir. unfold os_makedirs, os_listdir, log. cbn [files dirs trace].
  rewrite Hfile. unfold printed, opened.
  destruct (dirs w !! output_folder) as [l|] eqn:Hout; cbn [fst snd files dirs trace];
    rewrite ?lookup_insert_ne by assumption; rewrite Hdir;
    cbn [fst snd files dirs trace]; rewrite !omap_app; cbn; rewrite !app_nil_r; auto.
Qed.

Lemma process_images_in_folder_unfold (w : World P) folder_path
    black_color white_color cleanup resize_dim names :
  let output_folder := os_path_join folder_path "processed_images" in
  files w !! output_folder = None ->
  dirs w !! folder_path = Some names ->
  process_images_in_folder P folder_path black_color white_color cleanup resize_dim w
  = match for_M P names
            (process_file P folder_path output_folder black_color white_color
               cleanup resize_dim)
            (snd (os_listdir P folder_path (snd (os_makedirs P output_folder w)))) with
    | (Ret _, w1) =>
        print P ("All images processed and saved to " +:+ output_folder) w1
    | (Raise e, w1) => (Raise e, w1)
    end.
Proof.
  intros output_folder Hfile Hdir.
  destruct (enumerate_folder w folder_path output_folder names
              (output_folder_differs folder_path) Hfile Hdir) as (Hls & Hmk & _).
  unfold process_images_in_folder. fold output_folder. bind_step.
  destruct (os_makedirs P output_folder w) as [[[]|e] w0] eqn:Hw0;
    cbn [fst snd] in *; [|discriminate].
  unfold M_bind at 1. rewrite Hls. unfold M_bind at 1.
  destruct (for_M P names _ _) as [[[]|e] w1]; reflexivity.
Qed.




End Batch.

(** C4 (as the script has it): the loop over the folder has no handler.
    When the files listed before [file_name] are processed without error
    and [file_name] raises [e], the whole folder run raises [e] to its
    caller and ends in the world of that moment: nothing is recorded and no
    later file is touched. *)
Theorem first_failure_aborts_the_batch (P : Pillow) (w w1 w2 : World P)
    folder_path black_color white_color cleanup resize_dim
    earlier file_name later e :
  files w !! os_path_join folder_path "processed_images" = None ->
  dirs w !! folder_path = Some (earlier ++ file_name :: later) ->
  for_M P earlier
    (process_file P folder_path (os_path_join folder_path "processed_images")
       black_color white_color cleanup resize_dim)
    (snd (os_listdir P folder_path
            (snd (os_makedirs P (os_path_join folder_path "processed_images") w))))
  = (Ret tt, w1) ->
  process_file P folder_path (os_path_join folder_path "processed_images")
    black_color white_color cleanup resize_dim file_name w1
  = (Raise e, w2) ->
  process_images_in_folder P folder_path black_color white_color cleanup resize_dim w
  = (Raise e, w2).
Proof.
  intros Hfile Hdir Hearlier Hfail.
  rewrite (process_images_in_folder_unfold P w folder_path black_color white_color
             cleanup resize_dim (earlier ++ file_name :: later)) by assumption.
  rewrite for_M_app, Hearlier. cbn [for_M]. unfold mbind, M_mbind, M_bind.
  rewrite Hfail. reflexivity.
Qed.

Lemma first_failure_aborts_the_batch_witness :
  process_images_in_folder raw "pics" default_black_color default_white_color
    false None (pics ["good.png"; "bad.png"; "good.png"]%string)
  = (Raise (UnidentifiedImageError "pics/bad.png"),
     mkWorld
       (<["pics/processed_images/good.png"%string :=
            Some (ModeRGB (mkImg (2, 2)
              [(0, 0, 0); (243, 239, 221); (0, 0, 0); (243, 239, 221)]))]>
          (files (pics [])))
       (<["pics/processed_images"%string := []]>
          (dirs (pics ["good.png"; "bad.png"; "good.png"]%string)))
       [MadeDirs "pics/processed_images"; Listed "pics";
        Opened "pics/good.png";
        Saved "pics/processed_images/good.png" (mkParams false None);
        Printed "Processed image saved to pics/processed_images/good.png";
        Opened "pics/bad.png"]).
Proof.
  apply (first_failure_aborts_the_batch raw
           (pics ["good.png"; "bad.png"; "good.png"]%string)
           (mkWorld
              (<["pics/processed_images/good.png"%string :=
                   Some (ModeRGB (mkImg (2, 2)
                     [(0, 0, 0); (243, 239, 221); (0, 0, 0); (243, 239, 221)]))]>
                 (files (pics [])))
              (<["pics/processed_images"%string := []]>
                 (dirs (pics ["good.png"; "bad.png"; "good.png"]%string)))
              [MadeDirs "pics/processed_images"; Listed "pics";
               Opened "pics/good.png";
               Saved "pics/processed_images/good.png" (mkParams false None);
               Printed "Processed image saved to pics/processed_images/good.png"])
           _ "pics" default_black_color default_white_color false None
           ["good.png"%string] "bad.png"%string ["good.png"%string]);
    reflexivity.
Defined.

(** C4, the claim as written fails: with the unreadable file listed first,
    the folder run raises that file's error to its caller; the good picture
    listed after it is never opened and no output is written for it. *)
Lemma unreadable_file_first_stops_the_run :
  let r := process_images_in_folder raw "pics" default_black_color
             default_white_color false None
             (pics ["bad.png"; "good.png"]%string) in
  fst r = Raise (UnidentifiedImageError "pics/bad.png")
  /\ opened (snd r) = ["pics/bad.png"%string]
  /\ printed (snd r) = []
  /\ files (snd r) !! "pics/processed_images/good.png"%string = None.
Proof.
  vm_compute. repeat split.
Qed.




(** * Further properties of [replace_colors] *)

(** The only exception the pixel loop can raise is IndexError. *)
Lemma for_each_raises {S B} (Q : exn -> Prop) (body : B -> S -> outcome S) :
  (forall b s e, body b s = Raise e -> Q e) ->
  forall l s e, for_each l body s = Raise e -> Q e.
Proof.
  intros Hbody l. induction l as [|b l IH]; intros s e; [discriminate|].
  cbn [for_each]. unfold mbind, outcome_mbind, outcome_bind.
  destruct (body b s) as [s'|e'] eqn:Hb.
  - apply IH.
  - intros [= <-]. eapply Hbody, Hb.
Qed.

Lemma colorize_raises black_color white_color bw_image e :
  colorize black_color white_color bw_image = Raise e -> e = IndexError.
Proof.
  unfold colorize. apply (for_each_raises (fun e => e = IndexError)).
  intros y im e'. apply (for_each_raises (fun e => e = IndexError)).
  clear. intros x im e. unfold mbind, outcome_mbind, outcome_bind.
  unfold PixelAccess_getitem, Image_putpixel.
  destruct (pixel_index bw_image (x, y)) as [i|]; [|congruence].
  destruct (data bw_image !! i); [|congruence].
  destruct (pixel_index im (x, y)) as [j|]; [|congruence].
  destruct (decide _); congruence.
Qed.

Lemma resize_with_raises kernel im new_size e :
  resize_with kernel im new_size = Raise e ->
  e = ValueError "height and width must be > 0".
Proof.
  unfold resize_with. destruct (decide _); [discriminate|].
  destruct (_ || _); congruence.
Qed.

Section Frames.

Context (P : Pillow).

(** Every run opens its source and then either stops, before any save and
    with files and output untouched, or goes on to save some raster. *)
Lemma replace_colors_shape (w : World P) image_path
    black_color white_color output_path cleanup resize_dim :
  exists w0,
    files w0 = files w /\ dirs w0 = dirs w /\ printed w0 = printed w
    /\ opened w0 = opened w ++ [image_path]
    /\ ((exists e,
           (forall path, e <> OSError path)
           /\ replace_colors P image_path black_color white_color output_path
                cleanup resize_dim w = (Raise e, w0))
        \/ (exists replaced_image,
              replace_colors P image_path black_color white_color output_path
                cleanup resize_dim w
              = save_and_report P replaced_image output_path cleanup w0)).
Proof.
  assert (opened (log P (Opened image_path) w) = opened w ++ [image_path]) as Hop
    by (unfold opened; cbn; rewrite omap_app; reflexivity).
  assert (printed (log P (Opened image_path) w) = printed w) as Hpr
    by (unfold printed; cbn; rewrite omap_app; cbn; apply app_nil_r).
  unfold replace_colors, mbind, M_mbind, M_bind, Image_open, lift.
  cbn [files dirs log].
  destruct (files w !! image_path) as [b|].
  2:{ exists (log P (Opened image_path) w). repeat (split; [auto; fail|]).
      left. destruct (dirs w !! image_path); eexists;
        (split; [|reflexivity]); intros path; discriminate. }
  destruct (decode P b) as [image|].
  2:{ exists (log P (Opened image_path) w). repeat (split; [auto; fail|]).
      left. eexists. split; [|reflexivity]. intros path; discriminate. }
  destruct (colorize _ _ _) as [replaced_image|e] eqn:Hcol.
  2:{ exists (log P (Opened image_path) w). repeat (split; [auto; fail|]).
      left. exists e. split; [|reflexivity].
      apply colorize_raises in Hcol as ->. intros path; discriminate. }
  destruct resize_dim as [dim|]; unfold resize_if_asked.
  - unfold Image_resize.
    exists (log P (Resized dim) (log P (Opened image_path) w)).
    split; [reflexivity|]. split; [reflexivity|].
    split; [unfold printed in *; cbn in *; rewrite omap_app; cbn;
            rewrite app_nil_r; exact Hpr|].
    split; [unfold opened in *; cbn in *; rewrite omap_app; cbn;
            rewrite app_nil_r; exact Hop|].
    destruct (resize_with _ _ _) as [resized|e] eqn:Hres.
    + right. eexists. reflexivity.
    + left. exists e. split; [|reflexivity].
      apply resize_with_raises in Hres as ->. intros path; discriminate.
  - unfold mret, M_mret, M_ret.
    exists (log P (Opened image_path) w). repeat (split; [auto; fail|]).
    right. eexists. reflexivity.
Qed.

Lemma save_and_report_frame (im : Img rgb) output_path cleanup (w : World P) :
  dirs (snd (save_and_report P im output_path cleanup w)) = dirs w
  /\ forall path, path <> output_path ->
       files (snd (save_and_report P im output_path cleanup w)) !! path
       = files w !! path.
Proof.
  rewrite save_and_report_run. destruct (encode P _ _ im); cbn; split; auto.
  intros path Hne. apply lookup_insert_ne. congruence.
Qed.

Lemma save_and_report_opened (im : Img rgb) output_path cleanup (w : World P) :
  opened (snd (save_and_report P im output_path cleanup w)) = opened w.
Proof.
  rewrite save_and_report_run. unfold opened.
  destruct (encode P _ _ im); cbn; rewrite omap_app; cbn; apply app_nil_r.
Qed.

Lemma replace_colors_frame (w : World P) image_path
    black_color white_color output_path cleanup resize_dim :
  dirs (snd (replace_colors P image_path black_color white_color output_path
               cleanup resize_dim w)) = dirs w
  /\ forall path, path <> output_path ->
       files (snd (replace_colors P image_path black_color white_color output_path
                     cleanup resize_dim w)) !! path
       = files w !! path.
Proof.
  destruct (replace_colors_shape w image_path black_color white_color output_path
              cleanup resize_dim)
    as (w0 & Hf & Hd & _ & _ & [(e & _ & ->) | (im & ->)]).
  - cbn. rewrite Hf, Hd. auto.
  - destruct (save_and_report_frame im output_path cleanup w0) as [Hd' Hf'].
    rewrite Hd', Hd. split; [reflexivity|].
    intros path Hne. rewrite Hf' by assumption. rewrite Hf. reflexivity.
Qed.

(** Every run of [replace_colors] opens exactly its source path. *)
Lemma replace_colors_opened (w : World P) image_path
    black_color white_color output_path cleanup resize_dim :
  opened (snd (replace_colors P image_path black_color white_color output_path
                 cleanup resize_dim w))
  = opened w ++ [image_path].
Proof.
  destruct (replace_colors_shape w image_path black_color white_color output_path
              cleanup resize_dim)
    as (w0 & _ & _ & _ & Ho & [(e & _ & ->) | (im & ->)]).
  - exact Ho.
  - rewrite save_and_report_opened. exact Ho.
Qed.

(** X4: whatever the inputs and however the run ends, [replace_colors]
    opens its source and no other file, changes no file other than the one
    at [output_path] and creates or removes no directory. *)
Theorem replace_colors_touches_only_output (w : World P) image_path
    black_color white_color output_path cleanup resize_dim :
  opened (snd (replace_colors P image_path black_color white_color output_path
                 cleanup resize_dim w))
  = opened w ++ [image_path]
  /\ dirs (snd (replace_colors P image_path black_color white_color output_path
                  cleanup resize_dim w)) = dirs w
  /\ forall path, path <> output_path ->
       files (snd (replace_colors P image_path black_color white_color output_path
                     cleanup resize_dim w)) !! path
       = files w !! path.
Proof.
  split; [apply replace_colors_opened|].
  destruct (replace_colors_frame w image_path black_color white_color output_path
              cleanup resize_dim) as [Hdirs Hfiles].
  split; [exact Hdirs|].
  intros path Hne. apply Hfiles, Hne.
Qed.

(** X5: when [replace_colors] raises anything but the error of the save
    (the source is missing or unreadable, the resize is refused), no file
    has been written and no line printed. *)
Theorem failure_before_save_writes_nothing (w : World P) image_path
    black_color white_color output_path cleanup resize_dim e :
  fst (replace_colors P image_path black_color white_color output_path
         cleanup resize_dim w) = Raise e ->
  (forall path, e <> OSError path) ->
  files (snd (replace_colors P image_path black_color white_color output_path
                cleanup resize_dim w)) = files w
  /\ printed (snd (replace_colors P image_path black_color white_color output_path
                     cleanup resize_dim w)) = printed w.
Proof.
  destruct (replace_colors_shape w image_path black_color white_color output_path
              cleanup resize_dim)
    as (w0 & Hf & _ & Hp & _ & [(e' & _ & ->) | (im & ->)]).
  - cbn. auto.
  - rewrite save_and_report_run. destruct (encode P _ _ im); cbn; [discriminate|].
    intros [= <-] Hne. exfalso. apply (Hne output_path). reflexivity.
Qed.

End Frames.

Lemma failure_before_save_writes_nothing_witness :
  files (snd (replace_colors raw "pics/bad.png" default_black_color
                default_white_color "out.png" false None (pics [])))
  = files (pics [])
  /\ printed (snd (replace_colors raw "pics/bad.png" default_black_color
                     default_white_color "out.png" false None (pics [])))
     = printed (pics []).
Proof.
  apply (failure_before_save_writes_nothing raw (pics []) "pics/bad.png"
           default_black_color default_white_color "out.png" false None
           (UnidentifiedImageError "pics/bad.png")).
  - reflexivity.
  - intros path. discriminate.
Defined.

(** ** Running the pipeline on a picture in its own two colours *)

(** On an RGB source, each output pixel depends on the luminance of the
    source pixel only. *)
Lemma recolored_rgb (im : Img rgb) black_color white_color :
  wf_image (ModeRGB im) = true ->
  valid_color black_color = true ->
  valid_color white_color = true ->
  map (fun p => clip_rgb (replace_pixel_color black_color white_color p))
    (data (binarize (ModeRGB im)))
  = map (fun p => if rgb2l p >? threshold then white_color else black_color)
      (data im).
Proof.
  intros Hwf Hb Hw. rewrite recolored_data by assumption.
  cbn [Image_convert_L data]. apply map_map.
Qed.

Lemma rerun_run (P : Pillow) (w : World P) image_path b (im : Img rgb)
    black_color white_color output_path cleanup (f : rgb -> rgb) :
  files w !! image_path = Some b ->
  decode P b = Some (ModeRGB im) ->
  wf_image (ModeRGB im) = true ->
  valid_color black_color = true ->
  valid_color white_color = true ->
  Forall (fun p => (if rgb2l p >? threshold then white_color else black_color) = f p)
    (data im) ->
  replace_colors P image_path black_color white_color output_path cleanup None w
  = save_and_report P (mkImg (size im) (map f (data im))) output_path cleanup
      (log P (Opened image_path) w).
Proof.
  intros Hfile Hdec Hwf Hb Hw Hpix.
  rewrite (replace_colors_no_resize P w image_path b (ModeRGB im)) by assumption.
  rewrite recolored_rgb by assumption. cbn [Image_size].
  assert (map (fun p => if rgb2l p >? threshold then white_color else black_color)
            (data im) = map f (data im)) as ->; [|reflexivity].
  rewrite !map_is_fmap. apply Forall_fmap_ext, Hpix.
Qed.



(** X2: when both colours fall on the same side of the threshold, a run on
    a picture in these two colours loses the picture: every pixel comes out
    in one colour, [white_color] if both are lighter than 128, else
    [black_color]. *)
Theorem rerun_collapses_to_one_color (P : Pillow) (w : World P) image_path b
    (im : Img rgb) black_color white_color output_path cleanup :
  files w !! image_path = Some b ->
  decode P b = Some (ModeRGB im) ->
  wf_image (ModeRGB im) = true ->
  valid_color black_color = true ->
  valid_color white_color = true ->
  (rgb2l black_color >? 128) = (rgb2l white_color >? 128) ->
  Forall (fun p => p = black_color \/ p = white_color) (data im) ->
  replace_colors P image_path black_color white_color output_path cleanup None w
  = save_and_report P
      (mkImg (size im)
         (map (fun _ => if rgb2l white_color >? 128 then white_color else black_color)
            (data im)))
      output_path cleanup (log P (Opened image_path) w).
Proof.
  intros Hfile Hdec Hwf Hb Hw Hside Htwo.
  apply (rerun_run P w image_path b im); try assumption.
  eapply Forall_impl; [exact Htwo|]. unfold threshold.
  intros p [-> | ->]; [rewrite Hside|]; reflexivity.
Qed.

Lemma rerun_collapses_to_one_color_witness :
  replace_colors raw "again.png" (200, 200, 200) (250, 250, 250) "out.png" false None
    (mkWorld
       {[ "again.png"%string
          := Some (ModeRGB (mkImg (2, 1) [(200, 200, 200); (250, 250, 250)])) ]} ∅ [])
  = save_and_report raw
      (mkImg (2, 1)
         (map (fun _ => if rgb2l (250, 250, 250) >? 128
                        then (250, 250, 250) else (200, 200, 200))
            [(200, 200, 200); (250, 250, 250)]))
      "out.png" false
      (log raw (Opened "again.png")
         (mkWorld
            {[ "again.png"%string
               := Some (ModeRGB (mkImg (2, 1) [(200, 200, 200); (250, 250, 250)])) ]}
            ∅ [])).
Proof.
  apply (rerun_collapses_to_one_color raw _ "again.png"
           (Some (ModeRGB (mkImg (2, 1) [(200, 200, 200); (250, 250, 250)])))
           (mkImg (2, 1) [(200, 200, 200); (250, 250, 250)]));
    try reflexivity.
  repeat (apply List.Forall_cons; [auto|]). apply List.Forall_nil.
Defined.

(** X3: when [black_color] is the lighter of the two (luminance above 128)
    and [white_color] the darker (at most 128), a run on a picture in these
    two colours exchanges them at every pixel. *)
Theorem rerun_swaps_inverted_colors (P : Pillow) (w : World P) image_path b
    (im : Img rgb) black_color white_color output_path cleanup :
  files w !! image_path = Some b ->
  decode P b = Some (ModeRGB im) ->
  wf_image (ModeRGB im) = true ->
  valid_color black_color = true ->
  valid_color white_color = true ->
  rgb2l white_color <= 128 < rgb2l black_color ->
  Forall (fun p => p = black_color \/ p = white_color) (data im) ->
  replace_colors P image_path black_color white_color output_path cleanup None w
  = save_and_report P
      (mkImg (size im)
         (map (fun p => if decide (p = black_color) then white_color else black_color)
            (data im)))
      output_path cleanup (log P (Opened image_path) w).
Proof.
  intros Hfile Hdec Hwf Hb Hw [Hlw Hlb] Htwo.
  apply (rerun_run P w image_path b im); try assumption.
  eapply Forall_impl; [exact Htwo|]. unfold threshold.
  intros p [-> | ->].
  - destruct (decide (black_color = black_color)); [|congruence].
    destruct (Z.gtb_spec (rgb2l black_color) 128); [reflexivity|lia].
  - destruct (decide (white_color = black_color)) as [Heq|_]; [rewrite Heq in Hlw; lia|].
    destruct (Z.gtb_spec (rgb2l white_color) 128); [lia|reflexivity].
Qed.

Lemma rerun_swaps_inverted_colors_witness :
  replace_colors raw "again.png" (250, 250, 250) (10, 10, 10) "out.png" false None
    (mkWorld
       {[ "again.png"%string
          := Some (ModeRGB (mkImg (2, 1) [(250, 250, 250); (10, 10, 10)])) ]} ∅ [])
  = save_and_report raw
      (mkImg (2, 1)
         (map (fun p => if decide (p = (250, 250, 250))
                        then (10, 10, 10) else (250, 250, 250))
            [(250, 250, 250); (10, 10, 10)]))
      "out.png" false
      (log raw (Opened "again.png")
         (mkWorld
            {[ "again.png"%string
               := Some (ModeRGB (mkImg (2, 1) [(250, 250, 250); (10, 10, 10)])) ]}
            ∅ [])).
Proof.
  apply (rerun_swaps_inverted_colors raw _ "again.png"
           (Some (ModeRGB (mkImg (2, 1) [(250, 250, 250); (10, 10, 10)])))
           (mkImg (2, 1) [(250, 250, 250); (10, 10, 10)]));
    try reflexivity.
  - split; vm_compute; congruence.
  - repeat (apply List.Forall_cons; [auto|]). apply List.Forall_nil.
Defined.


(** * Further properties of [process_images_in_folder] *)

(** ** Which names the loop takes for pictures *)

Lemma string_app_assoc (a b c : string) : (a +:+ b) +:+ c = a +:+ (b +:+ c).
Proof.
  induction a as [|x a IH]; [reflexivity|].
  change (String x ((a +:+ b) +:+ c) = String x (a +:+ (b +:+ c))).
  rewrite IH. reflexivity.
Qed.

Lemma substring_split (k : nat) : forall s,
  (k <= String.length s)%nat ->
  s = String.substring 0 k s +:+ String.substring k (String.length s - k) s.
Proof.
  induction k as [|k IH]; intros s Hk.
  - rewrite Nat.sub_0_r. destruct s as [|c s]; [reflexivity|].
    cbn [String.length String.substring].
    change ("" +:+ String c (String.substring 0 (String.length s) s))
      with (String c (String.substring 0 (String.length s) s)).
    f_equal. clear. induction s as [|c s IH]; [reflexivity|].
    cbn [String.length String.substring]. f_equal. exact IH.
  - destruct s as [|c s]; [cbn in Hk; lia|].
    cbn [String.length] in *. cbn [String.substring].
    change (S (String.length s) - S k)%nat with (String.length s - k)%nat.
    change (String c (String.substring 0 k s)
            +:+ String.substring k (String.length s - k) s)
      with (String c (String.substring 0 k s
                      +:+ String.substring k (String.length s - k) s)).
    f_equal. apply IH. lia.
Qed.

Lemma substring_suffix (pre suf : string) :
  String.substring (String.length pre) (String.length suf) (pre +:+ suf) = suf.
Proof.
  induction pre as [|c pre IH].
  - change ("" +:+ suf) with suf. cbn [String.length].
    induction suf as [|c suf IH]; [reflexivity|].
    cbn [String.length String.substring]. f_equal. exact IH.
  - change (String c pre +:+ suf) with (String c (pre +:+ suf)).
    cbn [String.length String.substring]. exact IH.
Qed.

(** [s.endswith(suf)] says that [s] is something followed by [suf]. *)
Lemma endswith_spec (s suf : string) :
  endswith s suf = true <-> exists pre, s = pre +:+ suf.
Proof.
  unfold endswith. rewrite andb_true_iff, Nat.leb_le, String.eqb_eq. split.
  - intros [Hlen Hsub].
    exists (String.substring 0 (String.length s - String.length suf) s).
    pose proof (substring_split (String.length s - String.length suf) s) as Hsplit.
    replace (String.length s - (String.length s - String.length suf))%nat
      with (String.length suf) in Hsplit by lia.
    rewrite Hsub in Hsplit. apply Hsplit. lia.
  - intros [pre ->]. rewrite string_length_app. split; [lia|].
    replace (String.length pre + String.length suf - String.length suf)%nat
      with (String.length pre) by lia.
    apply substring_suffix.
Qed.

Lemma lower_app (a b : string) : lower (a +:+ b) = lower a +:+ lower b.
Proof.
  induction a as [|c a IH]; [reflexivity|].
  change (String c a +:+ b) with (String c (a +:+ b)). cbn [lower].
  rewrite IH. reflexivity.
Qed.

Lemma lower_split (a : string) : forall s b,
  lower s = a +:+ b -> exists s1 s2, s = s1 +:+ s2 /\ lower s1 = a /\ lower s2 = b.
Proof.
  induction a as [|c a IH]; intros s b Heq.
  - exists ""%string, s. auto.
  - destruct s as [|x s]; [discriminate|].
    change (String c a +:+ b) with (String c (a +:+ b)) in Heq.
    cbn [lower] in Heq. injection Heq as Hc Hrest.
    destruct (IH s b Hrest) as (s1 & s2 & -> & <- & <-).
    exists (String x s1), s2. cbn [lower]. rewrite Hc. auto.
Qed.

(** X7: a name of the folder is taken for a picture exactly when it ends in
    .png, .jpg, .jpeg, .bmp or .gif written in any mix of upper and lower
    case; nothing is asked of what stands before the suffix, which may be
    empty. *)
Theorem picture_names (file_name : string) :
  is_image_name file_name = true
  <-> exists stem ext,
        file_name = stem +:+ ext /\ In (lower ext) image_suffixes.
Proof.
  unfold is_image_name, endswith_any. rewrite existsb_exists. split.
  - intros (suf & Hin & (pre & Heq)%endswith_spec).
    destruct (lower_split pre file_name suf Heq) as (stem & ext & -> & _ & <-).
    exists stem, ext. auto.
  - intros (stem & ext & -> & Hin). exists (lower ext). split; [exact Hin|].
    apply endswith_spec. exists (lower stem). apply lower_app.
Qed.

(** ** What a folder run touches *)

Section BatchFrames.

Context (P : Pillow).

Lemma process_file_frame (w : World P) folder_path output_folder
    black_color white_color cleanup resize_dim file_name :
  dirs (snd (process_file P folder_path output_folder black_color white_color
               cleanup resize_dim file_name w)) = dirs w
  /\ forall path,
       (is_image_name file_name = true ->
        path <> os_path_join output_folder file_name) ->
       files (snd (process_file P folder_path output_folder black_color white_color
                     cleanup resize_dim file_name w)) !! path
       = files w !! path.
Proof.
  unfold process_file. destruct (is_image_name file_name).
  - destruct (replace_colors_frame P w (os_path_join folder_path file_name)
                black_color white_color (os_path_join output_folder file_name)
                cleanup resize_dim) as [Hd Hf].
    split; [exact Hd|]. intros path Hne. apply Hf, Hne. reflexivity.
  - cbn. auto.
Qed.

Lemma for_M_frame folder_path output_folder black_color white_color
    cleanup resize_dim names : forall (w : World P),
  dirs (snd (for_M P names
               (process_file P folder_path output_folder black_color white_color
                  cleanup resize_dim) w)) = dirs w
  /\ forall path,
       (forall name, In name names -> is_image_name name = true ->
                     path <> os_path_join output_folder name) ->
       files (snd (for_M P names
                     (process_file P folder_path output_folder black_color
                        white_color cleanup resize_dim) w)) !! path
       = files w !! path.
Proof.
  induction names as [|name names IH]; intros w; [cbn; auto|].
  cbn [for_M]. unfold mbind, M_mbind, M_bind.
  destruct (process_file_frame w folder_path output_folder black_color white_color
              cleanup resize_dim name) as [Hd Hf].
  destruct (process_file P _ _ _ _ _ _ name w) as [[[]|e] w1]; cbn [snd] in *.
  - destruct (IH w1) as [Hd1 Hf1]. split; [congruence|].
    intros path Hne. rewrite Hf1 by (intros n Hn; apply Hne; right; exact Hn).
    apply Hf. apply Hne. left. reflexivity.
  - split; [exact Hd|]. intros path Hne. apply Hf. apply Hne. left. reflexivity.
Qed.

Lemma process_file_opened (w : World P) folder_path output_folder
    black_color white_color cleanup resize_dim file_name :
  opened (snd (process_file P folder_path output_folder black_color white_color
                 cleanup resize_dim file_name w))
  = opened w
    ++ map (os_path_join folder_path) (List.filter is_image_name [file_name]).
Proof.
  unfold process_file. cbn [List.filter]. destruct (is_image_name file_name).
  - apply replace_colors_opened.
  - cbn. symmetry. apply app_nil_r.
Qed.

Lemma for_M_opened folder_path output_folder black_color white_color
    cleanup resize_dim names : forall (w : World P),
  exists k,
    opened (snd (for_M P names
                   (process_file P folder_path output_folder black_color
                      white_color cleanup resize_dim) w))
    = opened w
      ++ map (os_path_join folder_path) (take k (List.filter is_image_name names)).
Proof.
  induction names as [|name names IH]; intros w.
  - exists 0%nat. cbn. symmetry. apply app_nil_r.
  - cbn [for_M]. unfold mbind, M_mbind, M_bind.
    pose proof (process_file_opened w folder_path output_folder black_color
                  white_color cleanup resize_dim name) as Ho.
    cbn [List.filter] in *.
    destruct (process_file P _ _ _ _ _ _ name w) as [[[]|e] w1]; cbn [snd] in *.
    + destruct (IH w1) as [k Hk]. rewrite Hk, Ho.
      destruct (is_image_name name).
      * exists (S k). cbn [take map]. rewrite <- app_assoc. reflexivity.
      * exists k. cbn [map]. rewrite app_nil_r. reflexivity.
    + rewrite Ho. destruct (is_image_name name).
      * exists 1%nat. cbn [take map]. rewrite take_0. reflexivity.
      * exists 0%nat. rewrite take_0. reflexivity.
Qed.

(** A folder run in every case: stopped by a file standing where the
    output folder should be, or the loop over the listing. *)
Lemma process_images_in_folder_cases (w : World P) folder_path
    black_color white_color cleanup resize_dim names :
  dirs w !! folder_path = Some names ->
  let output_folder := os_path_join folder_path "processed_images" in
  process_images_in_folder P folder_path black_color white_color cleanup resize_dim w
  = match files w !! output_folder with
    | Some _ => (Raise (FileExistsError output_folder), log P (MadeDirs output_folder) w)
    | None =>
        match for_M P names
                (process_file P folder_path output_folder black_color white_color
                   cleanup resize_dim)
                (snd (os_listdir P folder_path (snd (os_makedirs P output_folder w))))
        with
        | (Ret _, w1) =>
            print P ("All images processed and saved to " +:+ output_folder) w1
        | (Raise e, w1) => (Raise e, w1)
        end
    end.
Proof.
  intros Hdir output_folder.
  destruct (files w !! output_folder) as [b|] eqn:Hfile.
  - unfold process_images_in_folder. fold output_folder. bind_step.
    unfold os_makedirs. cbn [files log]. rewrite Hfile. reflexivity.
  - apply process_images_in_folder_unfold; assumption.
Qed.

Lemma enumerate_folder_frame (w : World P) folder_path output_folder :
  files (snd (os_listdir P folder_path (snd (os_makedirs P output_folder w))))
  = files w
  /\ forall d, d <> output_folder ->
       dirs (snd (os_listdir P folder_path (snd (os_makedirs P output_folder w)))) !! d
       = dirs w !! d.
Proof.
  unfold os_makedirs, os_listdir, log. cbn [files dirs trace].
  destruct (files w !! output_folder), (dirs w !! output_folder) eqn:Hout;
    cbn [fst snd files dirs trace];
    (match goal with |- context [match ?x with _ => _ end] => destruct x end);
    cbn; split; auto; intros d Hne; rewrite lookup_insert_ne by congruence;
    reflexivity.
Qed.

Lemma batch_frame (w : World P) folder_path black_color white_color
    cleanup resize_dim names :
  dirs w !! folder_path = Some names ->
  (forall path,
     (forall name, In name names -> is_image_name name = true ->
        path <> os_path_join (os_path_join folder_path "processed_images") name) ->
     files (snd (process_images_in_folder P folder_path black_color white_color
                   cleanup resize_dim w)) !! path
     = files w !! path)
  /\ (forall d, d <> os_path_join folder_path "processed_images" ->
        dirs (snd (process_images_in_folder P folder_path black_color white_color
                     cleanup resize_dim w)) !! d
        = dirs w !! d).
Proof.
  intros Hdir.
  rewrite (process_images_in_folder_cases w folder_path black_color white_color
             cleanup resize_dim names Hdir).
  destruct (files w !! os_path_join folder_path "processed_images"); [cbn; auto|].
  destruct (enumerate_folder_frame w folder_path
              (os_path_join folder_path "processed_images")) as [Hf0 Hd0].
  destruct (for_M_frame folder_path (os_path_join folder_path "processed_images")
              black_color white_color cleanup resize_dim names
              (snd (os_listdir P folder_path
                      (snd (os_makedirs P
                              (os_path_join folder_path "processed_images") w)))))
    as [Hd1 Hf1].
  destruct (for_M P names _ _) as [[[]|e] w1]; cbn [snd print log files dirs] in *.
  - split.
    + intros path Hne. rewrite Hf1 by exact Hne. rewrite Hf0. reflexivity.
    + intros d Hne. rewrite Hd1. apply Hd0, Hne.
  - split.
    + intros path Hne. rewrite Hf1 by exact Hne. rewrite Hf0. reflexivity.
    + intros d Hne. rewrite Hd1. apply Hd0, Hne.
Qed.


(** X9: however a folder run ends, the files it has opened are picture
    names of the listing, joined to the folder, taken in listing order
    without a gap: the first [k] of them for some [k]. *)
Theorem folder_run_opens_pictures_in_order (w : World P) folder_path
    black_color white_color cleanup resize_dim names :
  dirs w !! folder_path = Some names ->
  exists k,
    opened (snd (process_images_in_folder P folder_path black_color white_color
                   cleanup resize_dim w))
    = opened w
      ++ map (os_path_join folder_path) (take k (List.filter is_image_name names)).
Proof.
  intros Hdir.
  rewrite (process_images_in_folder_cases w folder_path black_color white_color
             cleanup resize_dim names Hdir).
  destruct (files w !! os_path_join folder_path "processed_images") eqn:Hfile.
  { exists 0%nat. unfold opened. cbn. rewrite omap_app, take_0. reflexivity. }
  destruct (enumerate_folder P w folder_path _ names
              (output_folder_differs folder_path) Hfile Hdir) as (_ & _ & _ & Ho).
  destruct (for_M_opened folder_path (os_path_join folder_path "processed_images")
              black_color white_color cleanup resize_dim names
              (snd (os_listdir P folder_path
                      (snd (os_makedirs P
                              (os_path_join folder_path "processed_images") w)))))
    as [k Hk].
  exists k. rewrite Ho in Hk.
  destruct (for_M P names _ _) as [[[]|e] w1]; cbn [snd] in *; [|exact Hk].
  unfold print, opened in *. cbn [snd log trace]. rewrite omap_app, Hk. cbn.
  apply app_nil_r.
Qed.

End BatchFrames.

(** ** Input and output paths never meet *)

Lemma startswith_slash (s : string) :
  startswith s "/" = true -> exists rest, s = "/" +:+ rest.
Proof.
  unfold startswith. destruct s as [|c s]; [discriminate|]. cbn [String.prefix].
  destruct (Ascii.ascii_dec "/" c) as [<-|]; [|discriminate].
  intros _. exists s. reflexivity.
Qed.

(** The last character of a string that ends in processed_images is no
    separator. *)
Lemma output_folder_no_trailing_slash (x : string) :
  endswith (x +:+ "processed_images") "/" = false.
Proof.
  destruct (endswith (x +:+ "processed_images") "/") eqn:Hends; [|reflexivity].
  apply endswith_spec in Hends as [pre Heq].
  pose proof (f_equal String.length Heq) as Hlen.
  rewrite !string_length_app in Hlen. cbn [String.length] in Hlen.
  pose proof (substring_suffix pre "/") as Hlast. rewrite <- Heq in Hlast.
  change (x +:+ "processed_images") with (x +:+ ("processed_image" +:+ "s")) in Hlast.
  rewrite <- string_app_assoc in Hlast.
  replace (String.length pre) with (String.length (x +:+ "processed_image")) in Hlast
    by (rewrite string_length_app; cbn [String.length]; lia).
  change (String.length "/") with (String.length "s") in Hlast.
  rewrite substring_suffix in Hlast. discriminate.
Qed.

(** What [os.path.join] puts in front of a name with no separator in it. *)
Lemma join_plain_name (a n : string) :
  (forall x y, n <> x +:+ "/" +:+ y) ->
  os_path_join a n
  = (if String.eqb a "" || endswith a "/" then a else a +:+ "/") +:+ n.
Proof.
  intros Hplain. unfold os_path_join.
  destruct (startswith n "/") eqn:Hstart.
  - apply startswith_slash in Hstart as [rest ->].
    exfalso. apply (Hplain ""%string rest). reflexivity.
  - destruct (String.eqb a "" || endswith a "/"); [reflexivity|].
    symmetry. apply string_app_assoc.
Qed.

Lemma separator_in_string (x y : string) :
  In "/"%char (list_ascii_of_string (x +:+ "/" +:+ y)).
Proof. induction x as [|c x IH]; [left; reflexivity|right; exact IH]. Qed.

Lemma input_is_no_output (folder_path name name' : string) :
  (forall x y, name <> x +:+ "/" +:+ y) ->
  (forall x y, name' <> x +:+ "/" +:+ y) ->
  os_path_join folder_path name
  <> os_path_join (os_path_join folder_path "processed_images") name'.
Proof.
  intros Hplain Hplain'.
  rewrite (join_plain_name folder_path name Hplain).
  rewrite (join_plain_name _ name' Hplain').
  rewrite (join_plain_name folder_path "processed_images").
  2:{ intros x y Heq.
      pose proof (separator_in_string x y) as Hin. rewrite <- Heq in Hin.
      cbn in Hin. repeat (destruct Hin as [Hin|Hin]; [discriminate|]). exact Hin. }
  set (base := if String.eqb folder_path "" || endswith folder_path "/"
               then folder_path else folder_path +:+ "/").
  rewrite output_folder_no_trailing_slash.
  assert (String.eqb (base +:+ "processed_images") "" = false) as ->.
  { apply String.eqb_neq. intros Heq. apply (f_equal String.length) in Heq.
    rewrite string_length_app in Heq. cbn in Heq. lia. }
  cbn [orb]. rewrite !string_app_assoc. intros Heq.
  apply String.app_inj in Heq. apply (Hplain "processed_images"%string name').
  exact Heq.
Qed.

Section BatchEdges.

Context (P : Pillow).

(** X8: a folder run never writes over a file it reads.  When no name of
    the listing holds a separator (as [os.listdir] has it), every listed
    file is, after the run, what it was before, however the run ends. *)
Theorem folder_run_keeps_its_sources (w : World P) folder_path
    black_color white_color cleanup resize_dim names :
  dirs w !! folder_path = Some names ->
  (forall name, In name names -> forall x y, name <> x +:+ "/" +:+ y) ->
  forall name, In name names ->
    files (snd (process_images_in_folder P folder_path black_color white_color
                  cleanup resize_dim w)) !! os_path_join folder_path name
    = files w !! os_path_join folder_path name.
Proof.
  intros Hdir Hplain name Hname.
  apply (batch_frame P w folder_path black_color white_color cleanup resize_dim
           names Hdir).
  intros name' Hname' _. apply input_is_no_output; auto.
Qed.



End BatchEdges.


Lemma folder_run_opens_pictures_in_order_witness :
  exists k,
    opened (snd (process_images_in_folder raw "pics" default_black_color
                   default_white_color false None
                   (pics ["notes.txt"; "bad.png"; "good.png"]%string)))
    = opened (pics ["notes.txt"; "bad.png"; "good.png"]%string)
      ++ map (os_path_join "pics")
           (take k (List.filter is_image_name
                      ["notes.txt"; "bad.png"; "good.png"]%string)).
Proof.
  apply (folder_run_opens_pictures_in_order raw
           (pics ["notes.txt"; "bad.png"; "good.png"]%string) "pics"
           default_black_color default_white_color false None
           ["notes.txt"; "bad.png"; "good.png"]%string).
  reflexivity.
Defined.

Lemma folder_run_keeps_its_sources_witness :
  files (snd (process_images_in_folder raw "pics" default_black_color
                default_white_color true None (pics ["good.png"%string])))
    !! os_path_join "pics" "good.png"
  = files (pics ["good.png"%string]) !! os_path_join "pics" "good.png".
Proof.
  apply (folder_run_keeps_its_sources raw (pics ["good.png"%string]) "pics"
           default_black_color default_white_color true None ["good.png"%string]).
  - reflexivity.
  - intros name [<-|[]] x y Heq.
    pose proof (separator_in_string x y) as Hin. rewrite <- Heq in Hin.
    cbn in Hin. repeat (destruct Hin as [Hin|Hin]; [discriminate|]). exact Hin.
  - left. reflexivity.
Defined.


(** * The interactive layer *)

Section Asking.

Context (P : Pillow) (int_of_str : string -> option Z).

(** ** Statements that leave the files alone *)

Lemma untouched_refl (s : Session P) : untouched s s.
Proof. repeat split. Qed.

Lemma untouched_trans (s1 s2 s3 : Session P) :
  untouched s1 s2 -> untouched s2 s3 -> untouched s1 s3.
Proof.
  intros (Hf & Hd & Ho & Hg) (Hf' & Hd' & Ho' & Hg').
  repeat split; congruence.
Qed.

Lemma quiet_ret {A} (a : A) : quiet (Act_ret P a).
Proof. intros s. apply untouched_refl. Qed.

Lemma quiet_stop {A} sg : quiet (@stop P A sg).
Proof. intros s. apply untouched_refl. Qed.

Lemma quiet_bind {A B} (m : Act P A) (f : A -> Act P B) :
  quiet m -> (forall a, quiet (f a)) -> quiet (Act_bind P f m).
Proof.
  intros Hm Hf s. unfold Act_bind. specialize (Hm s).
  destruct (m s) as [[a|sg] s1]; cbn [snd] in *; [|exact Hm].
  eapply untouched_trans; [exact Hm|apply Hf].
Qed.

Lemma quiet_try {A} (body handler : Act P A) :
  quiet body -> quiet handler -> quiet (try_except_ValueError P body handler).
Proof.
  intros Hb Hh s. unfold try_except_ValueError. specialize (Hb s).
  destruct (body s) as [[a|[[]| | | |]] s1]; cbn [snd] in *; try exact Hb.
  eapply untouched_trans; [exact Hb|apply Hh].
Qed.

Lemma quiet_input prompt : quiet (input_ P prompt).
Proof. intros s. unfold input_. destruct (stdin s); repeat split. Qed.

Lemma quiet_int_input prompt : quiet (int_input P int_of_str prompt).
Proof.
  apply quiet_bind; [apply quiet_input|]. intros line.
  destruct (int_of_str line); [apply quiet_ret|apply quiet_stop].
Qed.

Lemma quiet_print line : quiet (run_core P (print P line)).
Proof.
  intros s. unfold run_core, print, untouched, opened. cbn.
  rewrite omap_app. cbn. rewrite app_nil_r. auto.
Qed.

Lemma quiet_askcolor : quiet (askcolor P).
Proof. intros s. unfold askcolor. destruct (chooser s); repeat split. Qed.

Lemma quiet_Tk : quiet (Tk P).
Proof. intros s. unfold Tk. destruct (display s); repeat split. Qed.

Lemma quiet_ask_rgb prompt : quiet (ask_rgb P int_of_str prompt).
Proof.
  unfold ask_rgb.
  apply quiet_bind; [apply quiet_int_input|]. intros r.
  apply quiet_bind; [apply quiet_int_input|]. intros g.
  apply quiet_bind; [apply quiet_int_input|]. intros b.
  destruct (_ && _); [apply quiet_ret|].
  apply quiet_bind; [apply quiet_print|]. intros _. apply quiet_ret.
Qed.

Lemma quiet_manual_turn prompt : quiet (manual_turn P int_of_str prompt).
Proof.
  apply quiet_try; [apply quiet_ask_rgb|].
  apply quiet_bind; [apply quiet_print|]. intros _. apply quiet_ret.
Qed.

Lemma quiet_manual_loop fuel prompt : quiet (manual_loop P int_of_str fuel prompt).
Proof.
  induction fuel as [|fuel IH]; [apply quiet_stop|].
  cbn [manual_loop]. apply quiet_bind; [apply quiet_manual_turn|].
  intros [c|]; [apply quiet_ret|exact IH].
Qed.

Lemma quiet_pick prompt default_color :
  quiet (pick_color_or_default P int_of_str prompt default_color).
Proof.
  unfold pick_color_or_default.
  apply quiet_bind; [apply quiet_input|]. intros choice.
  destruct (String.eqb _ "yes"); [|apply quiet_ret].
  apply quiet_bind; [apply quiet_input|]. intros use_picker.
  destruct (String.eqb _ "yes").
  - apply quiet_bind; [apply quiet_askcolor|]. intros [c|]; [apply quiet_ret|].
    apply quiet_bind; [apply quiet_print|]. intros _. apply quiet_stop.
  - intros s. apply quiet_manual_loop.
Qed.

Lemma quiet_ask_resize_dim : quiet (ask_resize_dim P int_of_str).
Proof.
  unfold ask_resize_dim.
  apply quiet_bind; [apply quiet_input|]. intros wanted.
  destruct (String.eqb _ "yes"); [|apply quiet_ret].
  apply quiet_try.
  - apply quiet_bind; [apply quiet_int_input|]. intros width.
    apply quiet_bind; [apply quiet_int_input|]. intros height. apply quiet_ret.
  - apply quiet_bind; [apply quiet_print|]. intros _. apply quiet_ret.
Qed.

End Asking.

Section Main.

Context (P : Pillow) (int_of_str : string -> option Z).

Lemma quiet_then {A B} (m : Act P A) (f : A -> Act P B) :
  quiet m ->
  (forall a s, dialogs s = [] -> untouched s (snd (f a s))) ->
  forall s, dialogs s = [] -> untouched s (snd (Act_bind P f m s)).
Proof.
  intros Hm Hf s Hs. unfold Act_bind. specialize (Hm s).
  destruct (m s) as [[a|sg] s1]; cbn [snd] in *; [|exact Hm].
  eapply untouched_trans; [exact Hm|]. apply Hf.
  destruct Hm as (_ & _ & _ & ->). exact Hs.
Qed.

Lemma dispatch_cancelled black_color white_color cleanup resize_dim (s : Session P) :
  dialogs s = [] ->
  untouched s (snd (dispatch P black_color white_color cleanup resize_dim s)).
Proof.
  unfold dispatch. apply quiet_then; [apply quiet_input|].
  intros choice s1 Hs1.
  destruct (String.eqb _ "image").
  - unfold mbind, Act_mbind, Act_bind, filedialog. rewrite Hs1. cbn.
    apply untouched_refl.
  - destruct (String.eqb _ "folder").
    + unfold mbind, Act_mbind, Act_bind, filedialog. rewrite Hs1. cbn.
      apply untouched_refl.
    + apply quiet_print.
Qed.

(** X15: when every file dialog is cancelled, whatever is typed or picked
    before, [main] reads and writes no file: the files and directories are
    afterwards what they were, and nothing has been opened. *)
Theorem cancelled_dialogs_touch_nothing (s : Session P) :
  dialogs s = [] ->
  files (world (snd (main P int_of_str s))) = files (world s)
  /\ dirs (world (snd (main P int_of_str s))) = dirs (world s)
  /\ opened (world (snd (main P int_of_str s))) = opened (world s).
Proof.
  intros Hs.
  assert (untouched s (snd (main P int_of_str s))) as (Hf & Hd & Ho & _); [|auto].
  revert s Hs. unfold main.
  apply quiet_then; [apply quiet_Tk|]. intros _.
  apply quiet_then; [apply quiet_print|]. intros _.
  apply quiet_then; [apply quiet_pick|]. intros black_color.
  apply quiet_then; [apply quiet_print|]. intros _.
  apply quiet_then; [apply quiet_pick|]. intros white_color.
  apply quiet_then; [apply quiet_input|]. intros cleanup.
  apply quiet_then; [apply quiet_ask_resize_dim|]. intros resize_dim.
  apply dispatch_cancelled.
Qed.

End Main.

Lemma cancelled_dialogs_touch_nothing_witness :
  files (world (snd (main raw decimal
                       (at_terminal ["no"; "no"; "yes"; "no"; "folder"]%string [] []))))
  = files (world (at_terminal ["no"; "no"; "yes"; "no"; "folder"]%string [] []))
  /\ dirs (world (snd (main raw decimal
                         (at_terminal ["no"; "no"; "yes"; "no"; "folder"]%string [] []))))
     = dirs (world (at_terminal ["no"; "no"; "yes"; "no"; "folder"]%string [] []))
  /\ opened (world (snd (main raw decimal
                           (at_terminal ["no"; "no"; "yes"; "no"; "folder"]%string [] []))))
     = opened (world (at_terminal ["no"; "no"; "yes"; "no"; "folder"]%string [] [])).
Proof.
  apply (cancelled_dialogs_touch_nothing raw decimal
           (at_terminal ["no"; "no"; "yes"; "no"; "folder"]%string [] [])).
  reflexivity.
Defined.

(** ** The manual entry of a colour *)

Section ManualEntry.

Context (P : Pillow) (int_of_str : string -> option Z).

(** One turn of the loop returns a colour with all bands in 0..255, or
    asks for another turn after reading at least one line, or meets the
    end of the input. *)
Lemma manual_turn_cases prompt (s : Session P) :
  match manual_turn P int_of_str prompt s with
  | (Value (Some c), _) => valid_color c = true
  | (Value None, s') => (length (stdin s') < length (stdin s))%nat
  | (Stop sg, _) => sg = EOFError
  end.
Proof.
  unfold manual_turn, try_except_ValueError, ask_rgb, int_input, mbind,
    Act_mbind, Act_bind, input_, stop, run_core, print, Act_mret, mret, Act_ret.
  destruct (stdin s) as [|l1 r1]; cbn; [reflexivity|].
  destruct (int_of_str l1) as [r|]; cbn; [|lia].
  destruct r1 as [|l2 r2]; cbn; [reflexivity|].
  destruct (int_of_str l2) as [g|]; cbn; [|lia].
  destruct r2 as [|l3 r3]; cbn; [reflexivity|].
  destruct (int_of_str l3) as [b|]; cbn; [|lia].
  destruct ((0 <=? r) && (r <=? 255) && ((0 <=? g) && (g <=? 255))
            && ((0 <=? b) && (b <=? 255))) eqn:Hrange; cbn; [exact Hrange|lia].
Qed.

(** The bound of the loop does not matter once it exceeds the number of
    lines left. *)
Lemma manual_loop_fuel prompt : forall (f1 f2 : nat) (s : Session P),
  (length (stdin s) < f1)%nat -> (length (stdin s) < f2)%nat ->
  manual_loop P int_of_str f1 prompt s = manual_loop P int_of_str f2 prompt s.
Proof.
  induction f1 as [|f1 IH]; intros f2 s H1 H2; [lia|].
  destruct f2 as [|f2]; [lia|]. cbn [manual_loop]. unfold mbind, Act_mbind, Act_bind.
  pose proof (manual_turn_cases prompt s) as Hturn.
  destruct (manual_turn P int_of_str prompt s) as [[[c|]|sg] s1]; try reflexivity.
  apply IH; lia.
Qed.

Lemma manual_loop_S prompt (fuel : nat) (s : Session P) :
  manual_loop P int_of_str (S fuel) prompt s
  = match manual_turn P int_of_str prompt s with
    | (Value (Some c), s') => (Value c, s')
    | (Value None, s') => manual_loop P int_of_str fuel prompt s'
    | (Stop sg, s') => (Stop sg, s')
    end.
Proof.
  cbn [manual_loop]. unfold mbind, Act_mbind, Act_bind.
  destruct (manual_turn P int_of_str prompt s) as [[[c|]|sg] s1]; reflexivity.
Qed.

Lemma manual_loop_ends prompt : forall (fuel : nat) (s : Session P),
  (length (stdin s) < fuel)%nat ->
  match fst (manual_loop P int_of_str fuel prompt s) with
  | Value c => valid_color c = true
  | Stop sg => sg = EOFError
  end.
Proof.
  induction fuel as [|fuel IH]; intros s Hlen; [lia|].
  cbn [manual_loop]. unfold mbind, Act_mbind, Act_bind.
  pose proof (manual_turn_cases prompt s) as Hturn.
  destruct (manual_turn P int_of_str prompt s) as [[[c|]|sg] s1]; cbn [fst].
  - exact Hturn.
  - apply IH. lia.
  - exact Hturn.
Qed.

(** X14: [pick_color_or_default] always comes to an end, the [while True]
    of the manual entry included: whatever is typed and picked, it returns
    a colour, or stops at the end of the input (EOFError), or leaves by
    [exit()] (SystemExit); no ValueError escapes it. *)
Theorem pick_color_ends prompt default_color (s : Session P) :
  match fst (pick_color_or_default P int_of_str prompt default_color s) with
  | Value _ => True
  | Stop sg => sg = EOFError \/ sg = SystemExit
  end.
Proof.
  unfold pick_color_or_default, mbind, Act_mbind, Act_bind, input_.
  destruct (stdin s) as [|l1 r1]; cbn; [auto|].
  destruct (String.eqb _ "yes"); [|exact I].
  destruct r1 as [|l2 r2]; cbn; [auto|].
  destruct (String.eqb _ "yes").
  - unfold askcolor. cbn. destruct (chooser s) as [|[c|] picks]; cbn; auto.
  - unfold manual_entry.
    match goal with
    | |- context [manual_loop P int_of_str ?f prompt ?s0] =>
        pose proof (manual_loop_ends prompt f s0 (Nat.lt_succ_diag_r _)) as Hend;
        destruct (fst (manual_loop P int_of_str f prompt s0)); auto
    end.
Qed.

(** X12: the colour [pick_color_or_default] returns has every band in
    0..255 whenever the default has and the colour chooser hands out such
    colours: nothing typed at the manual entry gets an out-of-range or
    non-integer band through. *)
Theorem picked_color_is_valid prompt default_color (s s' : Session P) color :
  valid_color default_color = true ->
  Forall (fun pick => forall c, pick = Some c -> valid_color c = true) (chooser s) ->
  pick_color_or_default P int_of_str prompt default_color s = (Value color, s') ->
  valid_color color = true.
Proof.
  intros Hdefault Hchooser.
  unfold pick_color_or_default, mbind, Act_mbind, Act_bind, input_.
  destruct (stdin s) as [|l1 r1]; cbn; [discriminate|].
  destruct (String.eqb _ "yes"); [|intros [= <- _]; exact Hdefault].
  destruct r1 as [|l2 r2]; cbn; [discriminate|].
  destruct (String.eqb _ "yes").
  - unfold askcolor. cbn. destruct (chooser s) as [|[c|] picks]; cbn;
      try discriminate.
    intros [= <- _]. apply (List.Forall_inv Hchooser). reflexivity.
  - unfold manual_entry.
    match goal with
    | |- context [manual_loop P int_of_str ?f prompt ?s0] =>
        pose proof (manual_loop_ends prompt f s0 (Nat.lt_succ_diag_r _)) as Hend;
        destruct (manual_loop P int_of_str f prompt s0) as [[c|sg] s1]
    end; [|discriminate].
    intros [= <- _]. exact Hend.
Qed.

(** X13: a line that is no integer abandons the turn at once.  When the
    red value is accepted and the green one is not an integer, the blue
    value is not asked for, the red one is forgotten, the error line is
    printed, and the entry starts again with the next line read as red. *)
Theorem bad_green_restarts_at_red prompt (s : Session P) l1 l2 rest r :
  stdin s = l1 :: l2 :: rest ->
  int_of_str l1 = Some r ->
  int_of_str l2 = None ->
  manual_entry P int_of_str prompt s
  = manual_entry P int_of_str prompt
      (mkSession
         (log P (Printed "Invalid input. Please enter integers between 0 and 255.")
            (world s))
         rest (chooser s) (dialogs s) (display s)
         (prompts s
          ++ ["Enter the red value for " +:+ prompt +:+ " (0-255): ";
              "Enter the green value for " +:+ prompt +:+ " (0-255): "])).
Proof.
  intros Hin H1 H2. unfold manual_entry. rewrite manual_loop_S.
  assert (manual_turn P int_of_str prompt s
          = (Value None,
             mkSession
               (log P (Printed "Invalid input. Please enter integers between 0 and 255.")
                  (world s))
               rest (chooser s) (dialogs s) (display s)
               (prompts s
                ++ ["Enter the red value for " +:+ prompt +:+ " (0-255): ";
                    "Enter the green value for " +:+ prompt +:+ " (0-255): "])))
    as ->.
  { unfold manual_turn, try_except_ValueError, ask_rgb, int_input, mbind,
      Act_mbind, Act_bind, input_, stop, run_core, print, Act_mret, mret, Act_ret.
    rewrite Hin. cbn. rewrite H1. cbn. rewrite H2. cbn.
    unfold with_world. cbn. rewrite <- app_assoc. reflexivity. }
  apply manual_loop_fuel; rewrite ?Hin; cbn [stdin length]; lia.
Qed.

End ManualEntry.

Lemma picked_color_is_valid_witness :
  fst (pick_color_or_default raw decimal "black" (0, 0, 0)
         (at_terminal ["YES "; "no"; "12"; "256"; "0"; "12"; "0"; "255"]%string [] []))
  = Value (12, 0, 255)
  /\ valid_color (12, 0, 255) = true.
Proof.
  split; [vm_compute; reflexivity|].
  apply (picked_color_is_valid raw decimal "black" (0, 0, 0)
           (at_terminal ["YES "; "no"; "12"; "256"; "0"; "12"; "0"; "255"]%string [] [])
           (mkSession
              (mkWorld (files (pics ["good.png"%string])) (dirs (pics ["good.png"%string]))
                 [Printed "RGB values must be between 0 and 255. Try again."])
              [] [] [] true
              (prompts (snd (pick_color_or_default raw decimal "black" (0, 0, 0)
                  (at_terminal ["YES "; "no"; "12"; "256"; "0"; "12"; "0"; "255"]%string
                     [] [])))))
           (12, 0, 255)).
  - reflexivity.
  - apply List.Forall_nil.
  - vm_compute. reflexivity.
Defined.

Lemma bad_green_restarts_at_red_witness :
  manual_entry raw decimal "white"
    (at_terminal ["10"; "ten"; "1"; "2"; "3"]%string [] [])
  = manual_entry raw decimal "white"
      (mkSession
         (log raw (Printed "Invalid input. Please enter integers between 0 and 255.")
            (world (at_terminal ["10"; "ten"; "1"; "2"; "3"]%string [] [])))
         ["1"; "2"; "3"]%string [] [] true
         (prompts (at_terminal ["10"; "ten"; "1"; "2"; "3"]%string [] [])
          ++ ["Enter the red value for " +:+ "white" +:+ " (0-255): ";
              "Enter the green value for " +:+ "white" +:+ " (0-255): "])).
Proof.
  apply (bad_green_restarts_at_red raw decimal "white"
           (at_terminal ["10"; "ten"; "1"; "2"; "3"]%string [] [])
           "10"%string "ten"%string ["1"; "2"; "3"]%string 10);
    reflexivity.
Defined.

(** ** The resize question and the hand-over to the pipeline *)

Section Resize.

Context (P : Pillow) (int_of_str : string -> option Z).




End Resize.


(** * The setup script *)

(** X18: a failing pip does not stop the setup.  On a machine where no
    system package is needed (not Linux, or tkinter importable) and the
    interpreter can be started, [main] returns whatever the two return
    codes of pip are: it runs the two pip commands and nothing else, tells
    for each whether it failed, and ends with the line "Setup completed
    successfully!" even when both failed. *)
Theorem pip_failures_do_not_stop_setup (m : Config.Machine) (l : Config.Log)
    (upgraded installed : Z) :
  String.eqb (Config.system m) "Linux" = false \/ Config.tkinter m = true ->
  Config.returncode m
    [Config.executable m; "-m"; "pip"; "install"; "--upgrade"; "pip"]%string
  = Some upgraded ->
  Config.returncode m [Config.executable m; "-m"; "pip"; "install"; "pillow"]%string
  = Some installed ->
  fst (Config.main m l) = Config.Done tt
  /\ Config.ran (snd (Config.main m l))
     = Config.ran l
       ++ [[Config.executable m; "-m"; "pip"; "install"; "--upgrade"; "pip"];
           [Config.executable m; "-m"; "pip"; "install"; "pillow"]]%string
  /\ Config.said (snd (Config.main m l))
     = Config.said l
       ++ [(if (upgraded =? 0)%Z then "pip updated successfully."
            else "Failed to update pip. Please update it manually.");
           (if (installed =? 0)%Z then "'pillow' installed successfully."
            else "Failed to install 'pillow'. Please install it manually.");
           (if String.eqb (Config.system m) "Linux"
            then "tkinter is already installed."
            else "tkinter is included by default on non-Linux systems.");
           String "010" "Setup completed successfully!"]%string.
Proof.
  intros Hsys Hup Hin.
  unfold Config.main, Config.install_all, Config.install_package,
    Config.check_and_install_tkinter, Config.try_except_CalledProcessError,
    Config.bind, Config.check_call, Config.print, Config.ret.
  rewrite Hup.
  destruct upgraded as [|u|u]; cbn; rewrite Hin;
    destruct installed as [|i|i]; cbn;
    destruct (String.eqb (Config.system m) "Linux") eqn:Hlinux;
    try (destruct Hsys as [Hs|Hs]; [discriminate|rewrite Hs]);
    cbn; rewrite <- ?app_assoc; cbn; auto.
Qed.

Lemma pip_failures_do_not_stop_setup_witness :
  fst (Config.main (Config.failing_debian true) (Config.mkLog [] [])) = Config.Done tt
  /\ Config.ran (snd (Config.main (Config.failing_debian true) (Config.mkLog [] [])))
     = Config.ran (Config.mkLog [] [])
       ++ [[Config.executable (Config.failing_debian true);
            "-m"; "pip"; "install"; "--upgrade"; "pip"];
           [Config.executable (Config.failing_debian true);
            "-m"; "pip"; "install"; "pillow"]]%string
  /\ Config.said (snd (Config.main (Config.failing_debian true) (Config.mkLog [] [])))
     = Config.said (Config.mkLog [] [])
       ++ [(if (1 =? 0)%Z then "pip updated successfully."
            else "Failed to update pip. Please update it manually.");
           (if (1 =? 0)%Z then "'pillow' installed successfully."
            else "Failed to install 'pillow'. Please install it manually.");
           (if String.eqb (Config.system (Config.failing_debian true)) "Linux"
            then "tkinter is already installed."
            else "tkinter is included by default on non-Linux systems.");
           String "010" "Setup completed successfully!"]%string.
Proof.
  apply (pip_failures_do_not_stop_setup (Config.failing_debian true)
           (Config.mkLog [] []) 1 1).
  - right. reflexivity.
  - reflexivity.
  - reflexivity.
Defined.

(** X19: a failing system package command does stop it.  On Linux without
    tkinter, when the distribution is named after Ubuntu or Debian and the
    apt command returns a code other than 0, or when the interpreter has
    no [platform.linux_distribution] at all, [main] raises after the two
    pip steps (CalledProcessError, AttributeError) and never prints the
    closing line. *)
Theorem system_package_failure_stops_setup (m : Config.Machine) (l : Config.Log)
    (upgraded installed : Z) :
  Config.system m = "Linux"%string ->
  Config.tkinter m = false ->
  Config.returncode m
    [Config.executable m; "-m"; "pip"; "install"; "--upgrade"; "pip"]%string
  = Some upgraded ->
  Config.returncode m [Config.executable m; "-m"; "pip"; "install"; "pillow"]%string
  = Some installed ->
  (Config.linux_distribution m = None ->
   fst (Config.main m l) = Config.Raised (Config.AttributeError "linux_distribution")
   /\ ~ In (String "010" "Setup completed successfully!")
          (skipn (length (Config.said l)) (Config.said (snd (Config.main m l)))))
  /\ (forall name code,
        Config.linux_distribution m = Some name ->
        Config.contains "ubuntu" (lower name) || Config.contains "debian" (lower name)
        = true ->
        Config.returncode m ["sudo"; "apt"; "install"; "-y"; "python3-tk"]%string
        = Some code ->
        code <> 0 ->
        fst (Config.main m l)
        = Config.Raised
            (Config.CalledProcessError
               ["sudo"; "apt"; "install"; "-y"; "python3-tk"]%string code)
        /\ ~ In (String "010" "Setup completed successfully!")
               (skipn (length (Config.said l)) (Config.said (snd (Config.main m l))))).
Proof.
  intros Hsys Htk Hup Hin.
  unfold Config.main, Config.install_all, Config.install_package,
    Config.check_and_install_tkinter, Config.try_except_CalledProcessError,
    Config.bind, Config.check_call, Config.print, Config.ret, Config.raise.
  rewrite Hup, Hsys, Htk. cbn [String.eqb Ascii.eqb Bool.eqb andb].
  split.
  - intros ->.
    destruct upgraded as [|u|u]; cbn; rewrite Hin;
      destruct installed as [|i|i]; cbn; (split; [reflexivity|]);
      rewrite <- !app_assoc, skipn_app, Nat.sub_diag, skipn_all; cbn;
      intros [H|[H|[H|[]]]]; discriminate.
  - intros name code -> -> Hapt Hcode.
    destruct upgraded as [|u|u]; cbn; rewrite Hin;
      destruct installed as [|i|i]; cbn; rewrite Hapt;
      (destruct code as [|c|c]; [congruence| |]); cbn; (split; [reflexivity|]);
      rewrite <- !app_assoc, skipn_app, Nat.sub_diag, skipn_all; cbn;
      intros [H|[H|[H|[]]]]; discriminate.
Qed.

Lemma system_package_failure_stops_setup_witness :
  fst (Config.main (Config.failing_debian false) (Config.mkLog [] []))
  = Config.Raised
      (Config.CalledProcessError
         ["sudo"; "apt"; "install"; "-y"; "python3-tk"]%string 1)
  /\ ~ In (String "010" "Setup completed successfully!")
         (skipn (length (Config.said (Config.mkLog [] [])))
            (Config.said (snd (Config.main (Config.failing_debian false)
                                 (Config.mkLog [] []))))).
Proof.
  apply (proj2 (system_package_failure_stops_setup (Config.failing_debian false)
                  (Config.mkLog [] []) 1 1 eq_refl eq_refl eq_refl eq_refl)
           "Debian GNU/Linux"%string 1);
    (reflexivity || discriminate).
Defined.
